(** * aur2: the PKGBUILD descriptor loader and validator

    A shallow embedding of [archlinux/aur/Package/pkgbuild.py] (class
    [Package]) together with the properties of its validator and loader.

    The Python object is a record of its five mutable attributes; methods
    are computations in a state monad whose state survives a raised
    exception, as the attributes of a Python object do. *)

From Stdlib Require Import Ascii String.
From stdpp Require Import base gmap strings list fin_maps.


(** ** Python values held by the field mapping *)

(** A field is a byte string or a list of byte strings. *)
Inductive value : Type :=
  | VStr (s : string)
  | VList (l : list string).

Global Instance value_eq_dec : EqDecision value.
Proof. solve_decision. Defined.

(** Python truthiness: the empty string and the empty list are falsy. *)
Definition truthy (v : value) : bool :=
  match v with
  | VStr "" => false
  | VStr _ => true
  | VList [] => false
  | VList _ => true
  end.

(** [len(v)] *)
Definition py_len (v : value) : nat :=
  match v with
  | VStr s => String.length s
  | VList l => length l
  end.

(** ** Exceptions and outcomes *)

Inductive exn : Type :=
  | KeyError (key : string)
  | TypeError
  | InvalidPackage (msg : string)
  | TarError
  | OSError
  | ExecError.

Global Instance exn_eq_dec : EqDecision exn.
Proof. solve_decision. Defined.

(** The outcome of a call: a returned value, a raised exception, or a call
    that never returns ([Hang]: a process blocked for ever). *)
Inductive result (A : Type) : Type :=
  | Ok (a : A)
  | Raise (e : exn)
  | Hang.
Arguments Ok {A} a.
Arguments Raise {A} e.
Arguments Hang {A}.

(** ** A state monad that keeps the state on exceptions *)

Definition M (S A : Type) : Type := S -> S * result A.

Definition ret {S A} (a : A) : M S A := fun s => (s, Ok a).

Definition raise {S A} (e : exn) : M S A := fun s => (s, Raise e).

Definition bind {S A B} (m : M S A) (k : A -> M S B) : M S B :=
  fun s =>
    match m s with
    | (s', Ok a) => k a s'
    | (s', Raise e) => (s', Raise e)
    | (s', Hang) => (s', Hang)
    end.

Declare Scope py_scope.
Delimit Scope py_scope with py.
Notation "x <- m ;; k" := (bind m (fun x => k))
  (at level 100, m at next level, right associativity) : py_scope.
Notation "m ;;; k" := (bind m (fun _ => k))
  (at level 100, right associativity) : py_scope.
Local Open Scope py_scope.

(** [for x in l: body x] *)
Fixpoint for_each {S A} (l : list A) (body : A -> M S unit) : M S unit :=
  match l with
  | [] => ret tt
  | x :: l' => body x ;;; for_each l' body
  end.

(** A [for] loop that also threads a local variable. *)
Fixpoint for_fold {S A B} (l : list A) (body : B -> A -> M S B) (b : B) : M S B :=
  match l with
  | [] => ret b
  | x :: l' => b' <- body b x ;; for_fold l' body b'
  end.

(** [if c: m] *)
Definition when {S} (c : bool) (m : M S unit) : M S unit :=
  if c then m else ret tt.

(** ** The [Package] object *)

Record Package : Type := mkPackage {
  _data : gmap string value;
  _validated : bool;
  _is_valid : bool;
  _errors : list string;
  _warnings : list string
}.

Definition _required_fields : list string :=
  ["name"; "description"; "version"; "release"; "licenses"; "arch"].

(** The attribute values set by [__init__] before it calls [load]. *)
Definition new_package : Package :=
  {| _data := ∅; _validated := false; _is_valid := false;
     _errors := []; _warnings := [] |}.

(** A package as [__init__] leaves it once [load] has filled in [d]. *)
Definition package_of (d : gmap string value) : Package :=
  {| _data := d; _validated := false; _is_valid := false;
     _errors := []; _warnings := [] |}.

(** *** Attribute access *)

(** [self._data[key]] *)
Definition getitem (key : string) : M Package value :=
  fun p =>
    match _data p !! key with
    | Some v => (p, Ok v)
    | None => (p, Raise (KeyError key))
    end.

(** [self._data[key] = v] *)
Definition setitem (key : string) (v : value) : M Package unit :=
  fun p =>
    ({| _data := <[key := v]> (_data p); _validated := _validated p;
        _is_valid := _is_valid p; _errors := _errors p;
        _warnings := _warnings p |}, Ok tt).

(** [self._errors.append(msg)] *)
Definition append_error (msg : string) : M Package unit :=
  fun p =>
    ({| _data := _data p; _validated := _validated p;
        _is_valid := _is_valid p; _errors := _errors p ++ [msg];
        _warnings := _warnings p |}, Ok tt).

(** [self._warnings.append(msg)] *)
Definition append_warning (msg : string) : M Package unit :=
  fun p =>
    ({| _data := _data p; _validated := _validated p;
        _is_valid := _is_valid p; _errors := _errors p;
        _warnings := _warnings p ++ [msg] |}, Ok tt).

(** [self._validated = True] *)
Definition set_validated : M Package unit :=
  fun p =>
    ({| _data := _data p; _validated := true;
        _is_valid := _is_valid p; _errors := _errors p;
        _warnings := _warnings p |}, Ok tt).

(** [self._is_valid = True] *)
Definition set_is_valid : M Package unit :=
  fun p =>
    ({| _data := _data p; _validated := _validated p;
        _is_valid := true; _errors := _errors p;
        _warnings := _warnings p |}, Ok tt).

(** ** Regular expressions of [validate] *)

Definition is_lower (c : ascii) : bool :=
  let n := nat_of_ascii c in (97 <=? n) && (n <=? 122).
Definition is_upper (c : ascii) : bool :=
  let n := nat_of_ascii c in (65 <=? n) && (n <=? 90).
Definition is_digit (c : ascii) : bool :=
  let n := nat_of_ascii c in (48 <=? n) && (n <=? 57).

(** [\w] without the LOCALE and UNICODE flags: [[a-zA-Z0-9_]]. *)
Definition is_word (c : ascii) : bool :=
  is_lower c || is_upper c || is_digit c || bool_decide (c = "_"%char).

(** The class [[\w\d_-]]. *)
Definition name_class (c : ascii) : bool :=
  is_word c || is_digit c || bool_decide (c = "_"%char)
  || bool_decide (c = "-"%char).

(** The class [[a-z\d_-]]. *)
Definition lower_class (c : ascii) : bool :=
  is_lower c || is_digit c || bool_decide (c = "_"%char)
  || bool_decide (c = "-"%char).

(** What is left of [s] after the longest run of [cls] characters. *)
Fixpoint skip_class (cls : ascii -> bool) (s : string) : string :=
  match s with
  | String c r => if cls c then skip_class cls r else s
  | EmptyString => EmptyString
  end.

Definition newline : string := String "010"%char EmptyString.

(** Python's [$] (no MULTILINE flag) matches at the end of the string and
    just before a newline that is the last character. *)
Definition at_dollar (rest : string) : bool :=
  bool_decide (rest = "") || bool_decide (rest = newline).

(** [re.compile("^[\w\d_-]+$").match(s)] is not [None].  The greedy [+]
    takes the longest run; giving characters back cannot help since [$]
    would then stand before a class character. *)
Definition name_re_match (s : string) : bool :=
  match s with
  | String c r => name_class c && at_dollar (skip_class name_class r)
  | EmptyString => false
  end.

(** [re.compile("[a-z\d_-]+").match(s)] is not [None]: [match] anchors at
    the start only, so one class character at the front is enough. *)
Definition lower_re_match (s : string) : bool :=
  match s with
  | String c _ => lower_class c
  | EmptyString => false
  end.

(** [pattern.match(v)]: a [TypeError] unless [v] is a string. *)
Definition re_match (re : string -> bool) (v : value) : M Package bool :=
  match v with
  | VStr s => ret (re s)
  | VList _ => raise TypeError
  end.

(** ** [validate] *)

Definition required_msg (field : string) : string :=
  field +:+ " field is required".
Definition name_error : string := "package name must be alphanumeric".
Definition lower_warning : string := "package name should be in lower case".
Definition description_warning : string :=
  "description should not exceed 80 characters".
Definition checksum_msg (checksum : string) : string :=
  "amount of " +:+ checksum +:+ " and sources does not match".
Definition missing_sums_error : string := "sources exist without checksums".

Definition checksum_fields : list string :=
  ["md5sums"; "sha1sums"; "sha256sums"; "sha384sums"; "sha512sums"].

(** Lines 79-81: search for missing fields. *)
Definition check_required : M Package unit :=
  for_each _required_fields (fun field =>
    v <- getitem field ;;
    when (negb (truthy v)) (append_error (required_msg field))).

(** Lines 82-85: the two name patterns. *)
Definition check_name : M Package unit :=
  name <- getitem "name" ;;
  ok <- re_match name_re_match name ;;
  if negb ok then append_error name_error
  else
    name' <- getitem "name" ;;
    low <- re_match lower_re_match name' ;;
    when (negb low) (append_warning lower_warning).

(** Lines 87-88: the description length. *)
Definition check_description : M Package unit :=
  d <- getitem "description" ;;
  if truthy d then
    d' <- getitem "description" ;;
    when (80 <? py_len d') (append_warning description_warning)
  else ret tt.

(** Lines 90-97: the loop over the checksum fields; the result is the
    local [found_sums]. *)
Definition check_checksums : M Package bool :=
  for_fold checksum_fields (fun found_sums checksum =>
    c <- getitem checksum ;;
    if truthy c then
      c' <- getitem checksum ;;
      src <- getitem "source" ;;
      when (negb (py_len c' =? py_len src))
           (append_error (checksum_msg checksum)) ;;;
      ret true
    else ret found_sums) false.

(** Lines 98-99. *)
Definition check_sources (found_sums : bool) : M Package unit :=
  src <- getitem "source" ;;
  when (truthy src && negb found_sums) (append_error missing_sums_error).

(** [has_errors] *)
Definition has_errors : M Package bool :=
  fun p => (p, Ok (0 <? length (_errors p))).

(** [has_warnings] *)
Definition has_warnings : M Package bool :=
  fun p => (p, Ok (0 <? length (_warnings p))).

Definition get_errors : M Package (list string) :=
  fun p => (p, Ok (_errors p)).

Definition get_warnings : M Package (list string) :=
  fun p => (p, Ok (_warnings p)).

(** Lines 79-99: the rules, which only append findings. *)
Definition check_findings : M Package unit :=
  check_required ;;;
  check_name ;;;
  check_description ;;;
  found_sums <- check_checksums ;;
  check_sources found_sums.

(** Lines 101-103: the two flags. *)
Definition set_flags : M Package unit :=
  set_validated ;;;
  e <- has_errors ;;
  when (negb e) set_is_valid.

Definition validate : M Package unit :=
  check_findings ;;;
  set_flags.

(** [is_valid] *)
Definition is_valid : M Package bool :=
  (fun p => (if negb (_validated p) then validate else ret tt) p) ;;;
  (fun p => (p, Ok (_is_valid p))).

(** ** Paths and strings of the Python library *)

(** [s.endswith(suffix)] *)
Fixpoint endswith (s suffix : string) : bool :=
  bool_decide (s = suffix)
  || match s with
     | String _ r => endswith r suffix
     | EmptyString => false
     end.

(** [s.find(sub) >= 0] *)
Definition find_ge0 (s sub : string) : bool :=
  match String.index 0 sub s with
  | Some _ => true
  | None => false
  end.

(** [s.rstrip()]: drop trailing white space. *)
Fixpoint rstrip (s : string) : string :=
  match s with
  | EmptyString => EmptyString
  | String c r =>
      let r' := rstrip r in
      if Ascii.is_space c && bool_decide (r' = "") then "" else String c r'
  end.

Definition is_slash (c : ascii) : bool := bool_decide (c = "/"%char).

(** [(p[:i], p[i:])] for [i = p.rfind('/') + 1]. *)
Fixpoint split_last_slash (p : string) : string * string :=
  match p with
  | EmptyString => ("", "")
  | String c q =>
      match split_last_slash q with
      | (EmptyString, t) =>
          if is_slash c then (String c "", t) else ("", String c t)
      | (h, t) => (String c h, t)
      end
  end.

(** [s == '/' * len(s)] *)
Fixpoint all_slashes (s : string) : bool :=
  match s with
  | EmptyString => true
  | String c r => is_slash c && all_slashes r
  end.

(** [s.rstrip('/')] *)
Fixpoint rstrip_slash (s : string) : string :=
  match s with
  | EmptyString => EmptyString
  | String c r =>
      let r' := rstrip_slash r in
      if is_slash c && bool_decide (r' = "") then "" else String c r'
  end.

(** [os.path.dirname] (posixpath) *)
Definition dirname (p : string) : string :=
  let head := (split_last_slash p).1 in
  if negb (bool_decide (head = "")) && negb (all_slashes head)
  then rstrip_slash head else head.

(** [os.path.basename] (posixpath) *)
Definition basename (p : string) : string := (split_last_slash p).2.

Definition startswith_slash (s : string) : bool :=
  match s with
  | String c _ => is_slash c
  | EmptyString => false
  end.

Fixpoint endswith_slash (s : string) : bool :=
  match s with
  | EmptyString => false
  | String c EmptyString => is_slash c
  | String _ r => endswith_slash r
  end.

(** [os.path.join(a, b)] (posixpath) *)
Definition os_path_join (a b : string) : string :=
  if startswith_slash b then b
  else if bool_decide (a = "") || endswith_slash a then a +:+ b
  else a +:+ "/" +:+ b.

(** ** The world outside the interpreter *)

(** What [load] does to the outside world, in order. *)
Inductive event : Type :=
  | EvTarOpen (file : string)
  | EvMkdtemp (directory : string)
  | EvExtract (member directory : string)
  | EvSpawn (command filename : string) (cwd : option string)
  | EvWait
  | EvReadlines
  | EvRemove (file : string).

Global Instance event_eq_dec : EqDecision event.
Proof. solve_decision. Defined.

(** The file system names a file by its path with runs of slashes read as
    one slash. *)
Fixpoint squeeze (p : string) : string :=
  match p with
  | EmptyString => EmptyString
  | String c r =>
      if is_slash c && startswith_slash r then squeeze r
      else String c (squeeze r)
  end.

Record World : Type := mkWorld {
  files : gmap string string;
  archives : gmap string (list (string * string));
  temp_dirs : list string;
  cwd : string;
  pipe_capacity : nat;
  trace : list event
}.

Definition fs_read (fs : gmap string string) (path : string) : option string :=
  fs !! squeeze path.

Definition log (e : event) (w : World) : World :=
  {| files := files w; archives := archives w; temp_dirs := temp_dirs w;
     cwd := cwd w; pipe_capacity := pipe_capacity w;
     trace := trace w ++ [e] |}.

Definition set_files (fs : gmap string string) (w : World) : World :=
  {| files := fs; archives := archives w; temp_dirs := temp_dirs w;
     cwd := cwd w; pipe_capacity := pipe_capacity w; trace := trace w |}.

(** [tarfile.open(file, "r")]: the members, in archive order, as pairs of
    name and content; an exception when [file] is not a readable archive. *)
Definition tarfile_open (file : string) : M World (list (string * string)) :=
  fun w =>
    match archives w !! file with
    | Some members => (log (EvTarOpen file) w, Ok members)
    | None => (log (EvTarOpen file) w, Raise TarError)
    end.

(** [tar.getnames()] *)
Definition getnames (tar : list (string * string)) : list string := tar.*1.

(** [tar.getmember(name)]: the last member of that name. *)
Definition getmember (tar : list (string * string)) (name : string)
  : option string :=
  match List.find (fun m => bool_decide (m.1 = name)) (reverse tar) with
  | Some m => Some m.2
  | None => None
  end.

(** [tempfile.mkdtemp()] *)
Definition mkdtemp : M World string :=
  fun w =>
    match temp_dirs w with
    | directory :: rest =>
        (log (EvMkdtemp directory)
           {| files := files w; archives := archives w; temp_dirs := rest;
              cwd := cwd w; pipe_capacity := pipe_capacity w;
              trace := trace w |}, Ok directory)
    | [] => (w, Raise OSError)
    end.

(** [tar.extract(member, directory)] *)
Definition tar_extract (tar : list (string * string))
    (member directory : string) : M World unit :=
  fun w =>
    match getmember tar member with
    | Some content =>
        (log (EvExtract member directory)
           (set_files (<[squeeze (os_path_join directory member) := content]>
                         (files w)) w), Ok tt)
    | None => (w, Raise (KeyError member))
    end.

(** [os.remove(file)] *)
Definition os_remove (file : string) : M World unit :=
  fun w =>
    match fs_read (files w) file with
    | Some _ =>
        (log (EvRemove file) (set_files (delete (squeeze file) (files w)) w),
         Ok tt)
    | None => (log (EvRemove file) w, Raise OSError)
    end.

(** ** [load] *)

Definition in_pkg {A} (m : M Package A) : M (Package * World) A :=
  fun s =>
    match m s.1 with
    | (p', r) => ((p', s.2), r)
    end.

Definition in_world {A} (m : M World A) : M (Package * World) A :=
  fun s =>
    match m s.2 with
    | (w', r) => ((s.1, w'), r)
    end.

(** [self._data.update(temp)]: the entries of [temp] win. *)
Definition data_update (temp : gmap string value) : M Package unit :=
  fun p =>
    ({| _data := temp ∪ _data p; _validated := _validated p;
        _is_valid := _is_valid p; _errors := _errors p;
        _warnings := _warnings p |}, Ok tt).

(** The number of bytes of the lines a process writes. *)
Definition output_size (lines : list string) : nat :=
  foldr (fun l n => String.length l + n) 0 lines.

(** The first name for which [member.find("PKGBUILD") >= 0]. *)
Definition find_pkgbuild (names : list string) : option string :=
  List.find (fun member => find_ge0 member "PKGBUILD") names.

(** The file the evaluator is pointed at: [filename] seen from [cwd]. *)
Definition descriptor_path (working_dir : option string) (filename : string)
  : string :=
  match working_dir with
  | Some d => d +:+ "/" +:+ filename
  | None => filename
  end.

Section Load.

(** [parsepkgbuild.sh], the evaluator run as a subprocess in directory
    [cwd] ([None]: the interpreter's own) on [filename]: the lines it
    writes to its standard output, each with its line end, or [None] when
    the process cannot be started. *)
Variable parsepkgbuild :
  option string -> string -> gmap string string -> option (list string).

(** Python's evaluation of [dict(<expression>)]; [None] when it raises. *)
Variable py_dict : string -> option (gmap string value).

(** [__file__] of the module. *)
Variable module_file : string.

(** [subprocess.Popen([command, filename], stdout=PIPE, cwd=working_dir)];
    the process object is the output the child has to write. *)
Definition popen (command filename : string) (working_dir : option string)
  : M World (list string) :=
  fun w =>
    match parsepkgbuild working_dir filename (files w) with
    | Some lines => (log (EvSpawn command filename working_dir) w, Ok lines)
    | None => (log (EvSpawn command filename working_dir) w, Raise OSError)
    end.

(** [process.wait()]: the child exits once it has written all its output,
    and it can write no more than the pipe holds while nobody reads. *)
Definition process_wait (process : list string) : M World unit :=
  fun w =>
    if output_size process <=? pipe_capacity w
    then (log EvWait w, Ok tt)
    else (log EvWait w, Hang).

(** [process.stdout.readlines()] *)
Definition stdout_readlines (process : list string) : M World (list string) :=
  fun w => (log EvReadlines w, Ok process).

(** [exec 'temp = dict(' + expression + ')'] *)
Definition exec_dict (expression : string) : M Package (gmap string value) :=
  match py_dict expression with
  | Some temp => ret temp
  | None => raise ExecError
  end.

(** Lines 33-52: a tarball is opened and its PKGBUILD extracted; the
    result is the new [file] and [is_temporary]. *)
Definition load_extract (file : string) : M (Package * World) (string * bool) :=
  if endswith file ".tar.gz" then
    tar <- in_world (tarfile_open file) ;;
    match find_pkgbuild (getnames tar) with
    | Some (String c m as to_extract) =>
        directory <- in_world mkdtemp ;;
        in_world (tar_extract tar to_extract directory) ;;;
        ret (os_path_join directory to_extract, true)
    | _ => raise (InvalidPackage "tar file does not contain a PKGBUILD")
    end
  else ret (file, false).

(** Lines 55-58: the directory the evaluator runs in. *)
Definition working_dir_of (file : string) : option string :=
  let working_dir := dirname file in
  if bool_decide (working_dir = "") then None else Some working_dir.

(** Lines 67-69: the variables are imported line by line. *)
Definition import_variables (lines : list string) : M Package unit :=
  for_each lines (fun expression =>
    temp <- exec_dict (rstrip expression) ;;
    data_update temp).

Definition load (file : string) : M (Package * World) unit :=
  script_dir <- (fun s =>
    let d := dirname module_file in
    (s, Ok (if bool_decide (d = "") then cwd s.2 else d))) ;;
  fi <- load_extract file ;;
  let file := fi.1 in
  let is_temporary := fi.2 in
  let working_dir := working_dir_of file in
  let filename := basename file in
  process <- in_world (popen (os_path_join script_dir "parsepkgbuild.sh")
                             filename working_dir) ;;
  in_world (process_wait process) ;;;
  lines <- in_world (stdout_readlines process) ;;
  in_pkg (import_variables lines) ;;;
  when is_temporary (in_world (os_remove file)).

(** [Package(file)] *)
Definition Package_init (file : string) : M World Package :=
  fun w =>
    match load file (new_package, w) with
    | ((p, w'), Ok _) => (w', Ok p)
    | ((_, w'), Raise e) => (w', Raise e)
    | ((_, w'), Hang) => (w', Hang)
    end.

(** *** The public methods, as a caller may invoke them in any order

    [__str__] and [__unicode__], which only print the mapping, are left
    out. *)

Inductive method : Type :=
  | CallLoad (file : string)
  | CallValidate
  | CallIsValid
  | CallHasErrors
  | CallHasWarnings
  | CallGetErrors
  | CallGetWarnings
  | CallGetItem (key : string)
  | CallSetItem (key : string) (v : value)
  | CallContains (item : string)
  | CallKeys.

Inductive returned : Type :=
  | RNone
  | RBool (b : bool)
  | RStrings (l : list string)
  | RValue (v : value).

Definition returning {S A} (f : A -> returned) (m : M S A) : M S returned :=
  a <- m ;; ret (f a).

Definition call (c : method) : M (Package * World) returned :=
  match c with
  | CallLoad file => returning (fun _ => RNone) (load file)
  | CallValidate => returning (fun _ => RNone) (in_pkg validate)
  | CallIsValid => returning RBool (in_pkg is_valid)
  | CallHasErrors => returning RBool (in_pkg has_errors)
  | CallHasWarnings => returning RBool (in_pkg has_warnings)
  | CallGetErrors => returning RStrings (in_pkg get_errors)
  | CallGetWarnings => returning RStrings (in_pkg get_warnings)
  | CallGetItem key => returning RValue (in_pkg (getitem key))
  | CallSetItem key v => returning (fun _ => RNone) (in_pkg (setitem key v))
  | CallContains item =>
      fun s => (s, Ok (RBool (bool_decide (is_Some (_data s.1 !! item)))))
  | CallKeys =>
      fun s => (s, Ok (RStrings (map_to_list (_data s.1)).*1))
  end.

(** A caller's session: the calls are made one after the other, the
    caller catching whatever a call raises; it ends where a call hangs. *)
Fixpoint session (cs : list method) (s : Package * World) : Package * World :=
  match cs with
  | [] => s
  | c :: cs' =>
      match call c s with
      | (s', Hang) => s'
      | (s', _) => session cs' s'
      end
  end.

End Load.

(** ** Stand-ins for the two outside collaborators

    [load] is parametric in the evaluator script and in Python's [exec];
    to run it on concrete worlds the following two simple collaborators are
    plugged in. *)

(** [s.splitlines(True)] for newline line ends. *)
Fixpoint split_lines (s : string) : list string :=
  match s with
  | EmptyString => []
  | String c r =>
      if bool_decide (c = "010"%char) then String c "" :: split_lines r
      else match split_lines r with
           | [] => [String c ""]
           | l :: ls => String c l :: ls
           end
  end.

(** An evaluator that prints the descriptor it is pointed at as it is, and
    prints nothing when there is no such file. *)
Definition cat_evaluator (working_dir : option string) (filename : string)
    (fs : gmap string string) : option (list string) :=
  match fs_read fs (descriptor_path working_dir filename) with
  | Some content => Some (split_lines content)
  | None => Some []
  end.

(** The text before and after the first [=] of a line. *)
Fixpoint split_eq (s : string) : option (string * string) :=
  match s with
  | EmptyString => None
  | String c r =>
      if bool_decide (c = "="%char) then Some ("", r)
      else match split_eq r with
           | Some (k, v) => Some (String c k, v)
           | None => None
           end
  end.

(** An [exec] that understands [key=text] only. *)
Definition keyval_dict (expression : string) : option (gmap string value) :=
  match split_eq expression with
  | Some (k, v) => Some {[ k := VStr v ]}
  | None => None
  end.

(** ** Findings: what a run of the rules appends, as a function of the
    field mapping alone *)

Definition findings (A : Type) : Type := list string * list string * result A.

(** [p] with [es] appended to its errors and [ws] to its warnings. *)
Definition extend (p : Package) (es ws : list string) : Package :=
  {| _data := _data p; _validated := _validated p; _is_valid := _is_valid p;
     _errors := _errors p ++ es; _warnings := _warnings p ++ ws |}.

Definition then_findings {A B} (x : findings A) (k : A -> findings B)
  : findings B :=
  match x with
  | (es, ws, Ok a) =>
      match k a with
      | (es', ws', r) => (es ++ es', ws ++ ws', r)
      end
  | (es, ws, Raise e) => (es, ws, Raise e)
  | (es, ws, Hang) => (es, ws, Hang)
  end.

Definition lookup_findings (d : gmap string value) (key : string)
  : findings value :=
  match d !! key with
  | Some v => ([], [], Ok v)
  | None => ([], [], Raise (KeyError key))
  end.

Definition error_if (c : bool) (msg : string) : findings unit :=
  (if c then [msg] else [], [], Ok tt).

Definition warning_if (c : bool) (msg : string) : findings unit :=
  ([], if c then [msg] else [], Ok tt).

Fixpoint each_findings {A} (l : list A) (body : A -> findings unit)
  : findings unit :=
  match l with
  | [] => ([], [], Ok tt)
  | x :: l' => then_findings (body x) (fun _ => each_findings l' body)
  end.

Fixpoint fold_findings {A B} (l : list A) (body : B -> A -> findings B) (b : B)
  : findings B :=
  match l with
  | [] => ([], [], Ok b)
  | x :: l' => then_findings (body b x) (fun b' => fold_findings l' body b')
  end.

Definition required_findings (d : gmap string value) : findings unit :=
  each_findings _required_fields (fun field =>
    then_findings (lookup_findings d field) (fun v =>
      error_if (negb (truthy v)) (required_msg field))).

Definition name_findings (d : gmap string value) : findings unit :=
  match d !! "name" with
  | Some (VStr s) =>
      (if name_re_match s then [] else [name_error],
       if name_re_match s && negb (lower_re_match s) then [lower_warning]
       else [],
       Ok tt)
  | Some (VList _) => ([], [], Raise TypeError)
  | None => ([], [], Raise (KeyError "name"))
  end.

Definition description_findings (d : gmap string value) : findings unit :=
  then_findings (lookup_findings d "description") (fun v =>
    warning_if (truthy v && (80 <? py_len v)) description_warning).

Definition checksum_findings (d : gmap string value) : findings bool :=
  fold_findings checksum_fields (fun found_sums checksum =>
    then_findings (lookup_findings d checksum) (fun c =>
      if truthy c then
        then_findings (lookup_findings d "source") (fun src =>
          then_findings
            (error_if (negb (py_len c =? py_len src)) (checksum_msg checksum))
            (fun _ => ([], [], Ok true)))
      else ([], [], Ok found_sums))) false.

Definition sources_findings (d : gmap string value) (found_sums : bool)
  : findings unit :=
  then_findings (lookup_findings d "source") (fun src =>
    error_if (truthy src && negb found_sums) missing_sums_error).

Definition validate_findings (d : gmap string value) : findings unit :=
  then_findings (required_findings d) (fun _ =>
  then_findings (name_findings d) (fun _ =>
  then_findings (description_findings d) (fun _ =>
  then_findings (checksum_findings d) (fun found_sums =>
  sources_findings d found_sums)))).

(** [m] appends, on every package, the findings [f] computes from the
    field mapping, and changes nothing else. *)
Definition runs_as {A} (m : M Package A) (f : gmap string value -> findings A)
  : Prop :=
  forall p, m p = (extend p (f (_data p)).1.1 (f (_data p)).1.2, (f (_data p)).2).

(** The package after [set_flags]. *)
Definition flagged (p : Package) : Package :=
  {| _data := _data p; _validated := true;
     _is_valid := if bool_decide (_errors p = []) then true else _is_valid p;
     _errors := _errors p; _warnings := _warnings p |}.

(** The number of times [msg] occurs in [l]. *)
Definition occurrences (msg : string) (l : list string) : nat :=
  count_occ String.string_dec l msg.

(** ** The vocabulary of the rules *)

(** Every key [validate] subscripts the mapping with. *)
Definition validate_keys : list string :=
  _required_fields ++ ["source"] ++ checksum_fields.

(** The mapping binds every key [validate] reads, and [name] to a string:
    the mappings on which [validate] returns. *)
Definition complete (d : gmap string value) : bool :=
  forallb (fun k => bool_decide (is_Some (d !! k))) validate_keys
  && match d !! "name" with
     | Some (VStr _) => true
     | _ => false
     end.

(** The field is bound to a truthy value. *)
Definition field_truthy (d : gmap string value) (k : string) : bool :=
  match d !! k with
  | Some v => truthy v
  | None => false
  end.

(** The field is bound to a falsy value: empty. *)
Definition field_empty (d : gmap string value) (k : string) : bool :=
  match d !! k with
  | Some v => negb (truthy v)
  | None => false
  end.

Definition field_len (d : gmap string value) (k : string) : nat :=
  match d !! k with
  | Some v => py_len v
  | None => 0
  end.

(** Rule 1. *)
Definition required_errors (d : gmap string value) : list string :=
  required_msg <$> List.filter (field_empty d) _required_fields.

(** Rule 2. *)
Definition name_errors (s : string) : list string :=
  if name_re_match s then [] else [name_error].

(** Rule 3. *)
Definition name_warnings (s : string) : list string :=
  if name_re_match s && negb (lower_re_match s) then [lower_warning] else [].

(** Rule 4. *)
Definition description_warnings (d : gmap string value) : list string :=
  if field_truthy d "description" && (80 <? field_len d "description")
  then [description_warning] else [].

(** Rule 5: a checksum field that is there and is not as long as [source]. *)
Definition mismatch (d : gmap string value) (checksum : string) : bool :=
  field_truthy d checksum
  && negb (field_len d checksum =? field_len d "source").

Definition checksum_errors (d : gmap string value) : list string :=
  checksum_msg <$> List.filter (mismatch d) checksum_fields.

Definition found_sums (d : gmap string value) : bool :=
  existsb (field_truthy d) checksum_fields.

(** Rule 6. *)
Definition sources_errors (d : gmap string value) : list string :=
  if field_truthy d "source" && negb (found_sums d)
  then [missing_sums_error] else [].

(** The character class [[A-Za-z0-9_-]] as the specification writes it. *)
Definition spec_class (c : ascii) : bool :=
  is_upper c || is_lower c || is_digit c || bool_decide (c = "_"%char)
  || bool_decide (c = "-"%char).

Fixpoint all_chars (cls : ascii -> bool) (s : string) : bool :=
  match s with
  | EmptyString => true
  | String c r => cls c && all_chars cls r
  end.

(** The whole of [s] matches [[A-Za-z0-9_-]+]. *)
Definition spec_name_match (s : string) : bool :=
  negb (bool_decide (s = "")) && all_chars spec_class s.

(** [s] has no upper-case letter. *)
Definition all_lowercase (s : string) : bool :=
  all_chars (fun c => negb (is_upper c)) s.

Definition starts_upper (s : string) : bool :=
  match s with
  | String c _ => is_upper c
  | EmptyString => false
  end.

(** The attributes other than the field mapping. *)
Definition verdict (p : Package) : bool * bool * list string * list string :=
  (_validated p, _is_valid p, _errors p, _warnings p).

Definition with_warnings (ws : list string) (p : Package) : Package :=
  {| _data := _data p; _validated := _validated p; _is_valid := _is_valid p;
     _errors := _errors p; _warnings := ws |}.

(** [m] keeps [P] true of the state, however it ends. *)
Definition preserves {S A} (P : S -> Prop) (m : M S A) : Prop :=
  forall s, P s -> P (m s).1.

(** ** Sample descriptors *)

(** A descriptor that passes every rule. *)
Definition sample_fields : gmap string value :=
  list_to_map
    [("name", VStr "hello"); ("description", VStr "greets the world");
     ("version", VStr "2.10"); ("release", VStr "1");
     ("licenses", VList ["GPL"]); ("arch", VList ["i686"; "x86_64"]);
     ("source", VList ["hello-2.10.tar.gz"]);
     ("md5sums", VList ["6cd0ffea3884a4e79330338dcc2987d6"]);
     ("sha1sums", VList []); ("sha256sums", VList []);
     ("sha384sums", VList []); ("sha512sums", VList [])].

(** The sample descriptor with an empty description and no architecture. *)
Definition sample_with_empty_fields : Package :=
  package_of (<["description" := VStr ""]>
                (<["arch" := VList []]> sample_fields)).

(** The call is a direct call of [validate]. *)
Definition calls_validate (c : method) : bool :=
  match c with
  | CallValidate => true
  | _ => false
  end.

(** A world with a descriptor file, the same descriptor in a tarball, a
    tarball without a descriptor, and a tarball whose descriptor makes the
    evaluator print a line that [exec] rejects. *)
Definition sample_world : World :=
  {| files := {[ "PKGBUILD" := "name=hello" ]};
     archives :=
       {[ "hello.tar.gz" := [("hello/", ""); ("hello/PKGBUILD", "name=hello")];
          "empty.tar.gz" := [("hello/", ""); ("hello/README", "hello")];
          "broken.tar.gz" := [("hello/PKGBUILD", "pkgname hello")] ]};
     temp_dirs := ["/tmp/tmpq3X9ab"; "/tmp/tmpLw0_e2"];
     cwd := "/home/aur";
     pipe_capacity := 4096;
     trace := [] |}.

(** The sample descriptor under another name. *)
Definition sample_named (name : string) : Package :=
  package_of (<["name" := VStr name]> sample_fields).

(** Three sources, two MD5 sums. *)
Definition sample_short_md5sums : Package :=
  package_of (<["source" := VList ["a"; "b"; "c"]]>
                (<["md5sums" := VList ["x"; "y"]]> sample_fields)).

(** A source, and no checksum key in the mapping at all. *)
Definition sample_without_sums : Package :=
  package_of (delete "md5sums" (delete "sha1sums" (delete "sha256sums"
                (delete "sha384sums" (delete "sha512sums" sample_fields))))).

(** The errors of the rules other than rule 1. *)
Definition other_errors : list string :=
  name_error :: (checksum_msg <$> checksum_fields) ++ [missing_sums_error].

(** All required fields are there, [name] is a list, no [md5sums] key. *)
Definition sample_list_name : Package :=
  package_of (<["name" := VList ["hello"; "hello-doc"]]>
                (delete "md5sums" sample_fields)).

(** The evaluator's output is a function of the content of the descriptor
    it is pointed at, and of nothing else. *)
Definition reads_descriptor_only
    (parsepkgbuild : option string -> string -> gmap string string
                     -> option (list string)) : Prop :=
  forall wd1 f1 fs1 wd2 f2 fs2,
    fs_read fs1 (descriptor_path wd1 f1) = fs_read fs2 (descriptor_path wd2 f2) ->
    parsepkgbuild wd1 f1 fs1 = parsepkgbuild wd2 f2 fs2.

(** The field mapping of the descriptor a constructor call produced. *)
Definition loaded_fields (r : result Package) : result (gmap string value) :=
  match r with
  | Ok p => Ok (_data p)
  | Raise e => Raise e
  | Hang => Hang
  end.

(** What running the evaluator and importing its output makes of [p]. *)
Definition imported
    (parsepkgbuild : option string -> string -> gmap string string
                     -> option (list string))
    (py_dict : string -> option (gmap string value))
    (working_dir : option string) (filename : string)
    (fs : gmap string string) (capacity : nat) (p : Package)
  : Package * result unit :=
  match parsepkgbuild working_dir filename fs with
  | Some lines =>
      if output_size lines <=? capacity
      then import_variables py_dict lines p
      else (p, Hang)
  | None => (p, Raise OSError)
  end.

(** The sample world with a pipe that holds eight bytes. *)
Definition narrow_pipe_world : World :=
  {| files := files sample_world; archives := archives sample_world;
     temp_dirs := temp_dirs sample_world; cwd := cwd sample_world;
     pipe_capacity := 8; trace := [] |}.

(** The constructor call with the stand-in collaborators. *)
Definition sample_init (file : string) (w : World) : World * result Package :=
  Package_init cat_evaluator keyval_dict "/srv/aur/Package/pkgbuild.py" file w.

(** No rule of [validate] finds an error in the mapping [d], whose name is
    the string [s]. *)
Definition passes_rules (d : gmap string value) (s : string) : bool :=
  negb (existsb (field_empty d) _required_fields)
  && name_re_match s
  && negb (existsb (mismatch d) checksum_fields)
  && (negb (field_truthy d "source") || found_sums d).

(** The first character is in [[a-z0-9_-]]. *)
Definition starts_lower_class (s : string) : bool :=
  match s with
  | String c _ => lower_class c
  | EmptyString => false
  end.

(** The sample descriptor with a description of [n] characters. *)
Definition sample_described (n : nat) : Package :=
  package_of (<["description" := VStr (string_of_list_ascii
                                         (replicate n "d"%char))]>
                sample_fields).

(** An empty description, and no [sha512sums] key in the mapping. *)
Definition sample_empty_without_sha512 : Package :=
  package_of (<["description" := VStr ""]> (delete "sha512sums" sample_fields)).

(** The archive [tar] contains exactly one descriptor: one member whose
    name contains [PKGBUILD], named [member] and holding [content]. *)
Definition holds_one_descriptor (tar : list (string * string))
    (member content : string) : Prop :=
  exists before after,
    tar = before ++ (member, content) :: after /\
    find_ge0 member "PKGBUILD" = true /\
    forall m, m ∈ getnames (before ++ after) ->
              find_ge0 m "PKGBUILD" = false.

(** The name has no slash in it. *)
Definition no_slash (s : string) : bool :=
  all_chars (fun c => negb (is_slash c)) s.

(** The event is the start of a process. *)
Definition is_spawn (e : event) : bool :=
  match e with
  | EvSpawn _ _ _ => true
  | _ => false
  end.

(** * Properties *)

(** ** The rules only append findings *)

Lemma extend_nil p : extend p [] [] = p.
Proof. destruct p; unfold extend; simpl; by rewrite !app_nil_r. Qed.

Lemma extend_extend p es ws es' ws' :
  extend (extend p es ws) es' ws' = extend p (es ++ es') (ws ++ ws').
Proof. unfold extend; simpl; by rewrite !app_assoc. Qed.

Lemma runs_as_ret {A} (a : A) : runs_as (ret a) (fun _ => ([], [], Ok a)).
Proof. intros p; simpl. by rewrite extend_nil. Qed.

Lemma runs_as_bind {A B} (m : M Package A) (k : A -> M Package B) f g :
  runs_as m f -> (forall a, runs_as (k a) (g a)) ->
  runs_as (bind m k) (fun d => then_findings (f d) (fun a => g a d)).
Proof.
  intros Hm Hk p. unfold bind. rewrite Hm.
  destruct (f (_data p)) as [[es ws] [a| e |]]; simpl; try done.
  rewrite Hk; simpl.
  destruct (g a (_data p)) as [[es' ws'] r]; simpl.
  by rewrite extend_extend.
Qed.

Lemma runs_as_getitem key :
  runs_as (getitem key) (fun d => lookup_findings d key).
Proof.
  intros p. unfold getitem, lookup_findings.
  destruct (_data p !! key); simpl; by rewrite extend_nil.
Qed.

Lemma runs_as_error_if c msg :
  runs_as (when c (append_error msg)) (fun _ => error_if c msg).
Proof.
  intros p. destruct c; simpl; [| by rewrite extend_nil].
  unfold append_error, extend; simpl. by rewrite app_nil_r.
Qed.

Lemma runs_as_warning_if c msg :
  runs_as (when c (append_warning msg)) (fun _ => warning_if c msg).
Proof.
  intros p. destruct c; simpl; [| by rewrite extend_nil].
  unfold append_warning, extend; simpl. by rewrite app_nil_r.
Qed.

Lemma runs_as_for_each {A} (l : list A) body fb :
  (forall x, runs_as (body x) (fb x)) ->
  runs_as (for_each l body) (fun d => each_findings l (fun x => fb x d)).
Proof.
  intros Hb. induction l as [| x l IH]; simpl.
  - apply runs_as_ret.
  - apply (runs_as_bind _ _ (fb x) (fun _ d => each_findings l (fun x => fb x d)));
      [apply Hb | intros _; apply IH].
Qed.

Lemma runs_as_for_fold {A B} (l : list A) (body : B -> A -> M Package B) fb b :
  (forall b x, runs_as (body b x) (fb b x)) ->
  runs_as (for_fold l body b)
          (fun d => fold_findings l (fun b x => fb b x d) b).
Proof.
  intros Hb. revert b. induction l as [| x l IH]; intros b; simpl.
  - apply runs_as_ret.
  - apply (runs_as_bind _ _ (fb b x)
             (fun b' d => fold_findings l (fun b x => fb b x d) b'));
      [apply Hb | intros b'; apply IH].
Qed.

Lemma check_required_runs : runs_as check_required required_findings.
Proof.
  unfold check_required, required_findings.
  apply (runs_as_for_each _ _ (fun field d =>
    then_findings (lookup_findings d field) (fun v =>
      error_if (negb (truthy v)) (required_msg field)))).
  intros field.
  apply (runs_as_bind _ _ (fun d => lookup_findings d field)
           (fun v _ => error_if (negb (truthy v)) (required_msg field))).
  - apply runs_as_getitem.
  - intros v. apply runs_as_error_if.
Qed.

Lemma check_name_runs : runs_as check_name name_findings.
Proof.
  intros p. unfold check_name, name_findings, bind, getitem.
  destruct (_data p !! "name") as [[s | l] |] eqn:E; simpl;
    try by rewrite extend_nil.
  destruct (name_re_match s); simpl.
  - rewrite E; simpl. destruct (lower_re_match s); simpl.
    + by rewrite extend_nil.
    + unfold append_warning, extend; simpl. by rewrite app_nil_r.
  - unfold append_error, extend; simpl. by rewrite app_nil_r.
Qed.

Lemma check_description_runs : runs_as check_description description_findings.
Proof.
  intros p. unfold check_description, description_findings, bind, getitem,
    lookup_findings.
  destruct (_data p !! "description") as [v |] eqn:E; simpl;
    [| by rewrite extend_nil].
  destruct (truthy v); simpl; [| by rewrite extend_nil].
  rewrite E; simpl.
  destruct (80 <? py_len v); simpl; [| by rewrite extend_nil].
  unfold append_warning, extend; simpl. by rewrite app_nil_r.
Qed.

Lemma check_checksums_runs : runs_as check_checksums checksum_findings.
Proof.
  unfold check_checksums, checksum_findings.
  apply (runs_as_for_fold _ _ (fun found_sums checksum d =>
    then_findings (lookup_findings d checksum) (fun c =>
      if truthy c then
        then_findings (lookup_findings d "source") (fun src =>
          then_findings
            (error_if (negb (py_len c =? py_len src)) (checksum_msg checksum))
            (fun _ => ([], [], Ok true)))
      else ([], [], Ok found_sums)))).
  intros found_sums checksum p.
  unfold bind, getitem, lookup_findings.
  destruct (_data p !! checksum) as [c |] eqn:E; simpl;
    [| by rewrite extend_nil].
  destruct (truthy c); simpl; [| by rewrite extend_nil].
  rewrite E; simpl.
  destruct (_data p !! "source") as [src |] eqn:Es; simpl;
    [| by rewrite extend_nil].
  destruct (py_len c =? py_len src); simpl; [by rewrite extend_nil |].
  unfold append_error, extend; simpl. by rewrite app_nil_r.
Qed.

Lemma check_sources_runs found_sums :
  runs_as (check_sources found_sums)
          (fun d => sources_findings d found_sums).
Proof.
  unfold check_sources, sources_findings.
  apply (runs_as_bind _ _ (fun d => lookup_findings d "source")
           (fun src _ => error_if (truthy src && negb found_sums)
                                  missing_sums_error)).
  - apply runs_as_getitem.
  - intros src. apply runs_as_error_if.
Qed.

Lemma check_findings_runs : runs_as check_findings validate_findings.
Proof.
  unfold check_findings, validate_findings.
  apply (runs_as_bind _ _ required_findings (fun _ d => _));
    [apply check_required_runs | intros _].
  apply (runs_as_bind _ _ name_findings (fun _ d => _));
    [apply check_name_runs | intros _].
  apply (runs_as_bind _ _ description_findings (fun _ d => _));
    [apply check_description_runs | intros _].
  apply (runs_as_bind _ _ checksum_findings
           (fun found_sums d => sources_findings d found_sums));
    [apply check_checksums_runs | intros found_sums].
  apply check_sources_runs.
Qed.

Lemma set_flags_run p : set_flags p = (flagged p, Ok tt).
Proof.
  unfold set_flags, bind, set_validated, has_errors, flagged; simpl.
  destruct (_errors p) as [| e es]; reflexivity.
Qed.

(** What one call of [validate] does, in full. *)
Lemma validate_run p :
  validate p =
    match validate_findings (_data p) with
    | (es, ws, Ok _) => (flagged (extend p es ws), Ok tt)
    | (es, ws, Raise e) => (extend p es ws, Raise e)
    | (es, ws, Hang) => (extend p es ws, Hang)
    end.
Proof.
  unfold validate, bind. rewrite check_findings_runs.
  destruct (validate_findings (_data p)) as [[es ws] [[] | e |]]; simpl;
    try done.
  apply set_flags_run.
Qed.

(** ** The findings on a complete mapping *)

Lemma complete_bound d k :
  complete d = true -> k ∈ validate_keys -> is_Some (d !! k).
Proof.
  unfold complete. intros H Hk.
  apply andb_prop in H as [H _].
  rewrite forallb_forall in H.
  apply list_elem_of_In, H, bool_decide_eq_true in Hk. exact Hk.
Qed.

Lemma complete_name d :
  complete d = true -> exists s, d !! "name" = Some (VStr s).
Proof.
  unfold complete. intros H. apply andb_prop in H as [_ H].
  destruct (d !! "name") as [[s | l] |]; try discriminate. by exists s.
Qed.

Lemma required_findings_bound d (l : list string) :
  Forall (fun k => is_Some (d !! k)) l ->
  each_findings l (fun field =>
    then_findings (lookup_findings d field) (fun v =>
      error_if (negb (truthy v)) (required_msg field)))
  = (required_msg <$> List.filter (field_empty d) l, [], Ok tt).
Proof.
  induction 1 as [| k l [v Hk] _ IH]; simpl; [done |].
  rewrite IH. unfold lookup_findings, field_empty. rewrite Hk; simpl.
  destruct (truthy v); reflexivity.
Qed.

Lemma checksum_findings_bound d (l : list string) b :
  Forall (fun k => is_Some (d !! k)) l -> is_Some (d !! "source") ->
  fold_findings l (fun found_sums checksum =>
    then_findings (lookup_findings d checksum) (fun c =>
      if truthy c then
        then_findings (lookup_findings d "source") (fun src =>
          then_findings
            (error_if (negb (py_len c =? py_len src)) (checksum_msg checksum))
            (fun _ => ([], [], Ok true)))
      else ([], [], Ok found_sums))) b
  = (checksum_msg <$> List.filter (mismatch d) l, [],
     Ok (b || existsb (field_truthy d) l)).
Proof.
  intros Hl [src Hs].
  match goal with |- fold_findings _ ?f _ = _ => set (body := f) end.
  revert b.
  induction Hl as [| k l [c Hk] _ IH]; intros b; simpl.
  - by rewrite orb_false_r.
  - assert (Hm : mismatch d k = truthy c && negb (py_len c =? py_len src))
      by (unfold mismatch, field_truthy, field_len; by rewrite Hk, Hs).
    assert (Ht : field_truthy d k = truthy c)
      by (unfold field_truthy; by rewrite Hk).
    rewrite Hm, Ht. unfold body at 1. unfold lookup_findings.
    rewrite Hk; simpl.
    destruct (truthy c); simpl.
    + rewrite Hs; simpl. rewrite IH.
      destruct b, (py_len c =? py_len src); reflexivity.
    + rewrite IH. reflexivity.
Qed.

Lemma required_in_keys k : k ∈ _required_fields -> k ∈ validate_keys.
Proof. intros H. apply elem_of_app. by left. Qed.

Lemma checksum_in_keys k : k ∈ checksum_fields -> k ∈ validate_keys.
Proof. intros H. apply elem_of_app. right. apply elem_of_app. by right. Qed.

Lemma source_in_keys : "source" ∈ validate_keys.
Proof. apply list_elem_of_In. simpl. tauto. Qed.

Lemma description_in_keys : "description" ∈ validate_keys.
Proof. apply list_elem_of_In. simpl. tauto. Qed.

Lemma validate_findings_complete d s :
  complete d = true -> d !! "name" = Some (VStr s) ->
  validate_findings d =
    (required_errors d ++ name_errors s ++ checksum_errors d
       ++ sources_errors d,
     name_warnings s ++ description_warnings d, Ok tt).
Proof.
  intros Hc Hn.
  assert (Hb : forall k, k ∈ validate_keys -> is_Some (d !! k))
    by (intros k; by apply complete_bound).
  unfold validate_findings, required_findings, checksum_findings.
  rewrite required_findings_bound
    by (apply Forall_forall; intros k Hk; by apply Hb, required_in_keys).
  rewrite checksum_findings_bound;
    [| apply Forall_forall; intros k Hk; by apply Hb, checksum_in_keys
     | apply Hb, source_in_keys].
  unfold name_findings. rewrite Hn.
  unfold description_findings, sources_findings, lookup_findings.
  destruct (Hb "description" description_in_keys) as [v Hv].
  destruct (Hb "source" source_in_keys) as [src Hs].
  rewrite Hv, Hs. simpl.
  unfold required_errors, name_errors, name_warnings, checksum_errors,
    sources_errors, description_warnings, found_sums, field_truthy, field_len.
  rewrite Hv, Hs. by rewrite !app_nil_r.
Qed.

(** ** Counting messages *)

Lemma occurrences_app msg l1 l2 :
  occurrences msg (l1 ++ l2) = occurrences msg l1 + occurrences msg l2.
Proof. apply count_occ_app. Qed.

Lemma occurrences_pos_nonempty msg l : 0 < occurrences msg l -> l <> [].
Proof. intros H ->. simpl in H. lia. Qed.

Lemma occurrences_required_errors d f :
  f ∈ _required_fields ->
  occurrences (required_msg f) (required_errors d)
  = if field_empty d f then 1 else 0.
Proof.
  intros Hf. unfold required_errors, _required_fields in *. simpl.
  repeat (apply elem_of_cons in Hf as [-> | Hf]);
    [.. | by apply not_elem_of_nil in Hf];
    generalize (field_empty d "name"), (field_empty d "description"),
      (field_empty d "version"), (field_empty d "release"),
      (field_empty d "licenses"), (field_empty d "arch");
    intros b1 b2 b3 b4 b5 b6;
    destruct b1, b2, b3, b4, b5, b6; reflexivity.
Qed.

Lemma occurrences_checksum_errors d c :
  c ∈ checksum_fields ->
  occurrences (checksum_msg c) (checksum_errors d)
  = if mismatch d c then 1 else 0.
Proof.
  intros Hc. unfold checksum_errors, checksum_fields in *. simpl.
  repeat (apply elem_of_cons in Hc as [-> | Hc]);
    [.. | by apply not_elem_of_nil in Hc];
    generalize (mismatch d "md5sums"), (mismatch d "sha1sums"),
      (mismatch d "sha256sums"), (mismatch d "sha384sums"),
      (mismatch d "sha512sums");
    intros b1 b2 b3 b4 b5;
    destruct b1, b2, b3, b4, b5; reflexivity.
Qed.

(** The messages of one rule never count as those of another. *)
Lemma occurrences_required_others d s f :
  f ∈ _required_fields ->
  occurrences (required_msg f)
    (name_errors s ++ checksum_errors d ++ sources_errors d) = 0.
Proof.
  intros Hf. rewrite !occurrences_app.
  unfold name_errors, checksum_errors, sources_errors, checksum_fields,
    _required_fields in *. simpl.
  generalize (mismatch d "md5sums"), (mismatch d "sha1sums"),
    (mismatch d "sha256sums"), (mismatch d "sha384sums"),
    (mismatch d "sha512sums"), (name_re_match s),
    (field_truthy d "source" && negb (found_sums d)).
  intros b1 b2 b3 b4 b5 b6 b7.
  repeat (apply elem_of_cons in Hf as [-> | Hf]);
    [.. | by apply not_elem_of_nil in Hf];
    destruct b1, b2, b3, b4, b5, b6, b7; reflexivity.
Qed.

Lemma validate_complete p s :
  complete (_data p) = true -> _data p !! "name" = Some (VStr s) ->
  validate p =
    (flagged (extend p
       (required_errors (_data p) ++ name_errors s
          ++ checksum_errors (_data p) ++ sources_errors (_data p))
       (name_warnings s ++ description_warnings (_data p))), Ok tt).
Proof.
  intros Hc Hn. rewrite validate_run.
  by rewrite (validate_findings_complete _ s Hc Hn).
Qed.

Lemma is_valid_validated p :
  _validated p = true -> is_valid p = (p, Ok (_is_valid p)).
Proof. intros H. unfold is_valid, bind. by rewrite H. Qed.

(** ** Rule 1: the required fields *)

(** C1, as amended.  On a descriptor whose mapping binds every key
    [validate] reads (and [name] to a string), and whose validity flag is
    not yet set, [validate] appends exactly one "field is required" error
    for each required field bound to an empty (falsy) value and none for
    the other required fields; and if there is such a field, the
    [is_valid] query that follows returns [False]. *)
Theorem validate_required_fields p :
  complete (_data p) = true -> _is_valid p = false ->
  exists es,
    _errors (validate p).1 = _errors p ++ es /\
    (forall f, f ∈ _required_fields ->
       occurrences (required_msg f) es
       = if field_empty (_data p) f then 1 else 0) /\
    ((exists f, f ∈ _required_fields /\ field_empty (_data p) f = true) ->
       is_valid (validate p).1 = ((validate p).1, Ok false)).
Proof.
  intros Hc Hv. destruct (complete_name _ Hc) as [s Hn].
  rewrite (validate_complete p s Hc Hn). simpl.
  eexists. split; [reflexivity |].
  assert (Hcount : forall f, f ∈ _required_fields ->
    occurrences (required_msg f)
      (required_errors (_data p) ++ name_errors s
         ++ checksum_errors (_data p) ++ sources_errors (_data p))
    = if field_empty (_data p) f then 1 else 0).
  { intros f Hf. rewrite occurrences_app.
    rewrite (occurrences_required_others _ s f Hf).
    rewrite (occurrences_required_errors _ f Hf). lia. }
  split; [exact Hcount |].
  intros (f & Hf & He).
  rewrite is_valid_validated by reflexivity. simpl.
  rewrite bool_decide_eq_false_2; [by rewrite Hv |].
  intros Hnil. apply app_eq_nil in Hnil as [_ Hnil].
  specialize (Hcount f Hf). rewrite He in Hcount.
  eapply occurrences_pos_nonempty; [| exact Hnil].
  rewrite Hcount. lia.
Qed.

Lemma validate_required_fields_witness :
  complete (_data sample_with_empty_fields) = true /\
  _is_valid sample_with_empty_fields = false /\
  exists es,
    _errors (validate sample_with_empty_fields).1
    = _errors sample_with_empty_fields ++ es /\
    (forall f, f ∈ _required_fields ->
       occurrences (required_msg f) es
       = if field_empty (_data sample_with_empty_fields) f then 1 else 0) /\
    ((exists f, f ∈ _required_fields
                /\ field_empty (_data sample_with_empty_fields) f = true) ->
       is_valid (validate sample_with_empty_fields).1
       = ((validate sample_with_empty_fields).1, Ok false)).
Proof.
  split; [vm_compute; reflexivity |].
  split; [reflexivity |].
  apply validate_required_fields; [vm_compute; reflexivity | reflexivity].
Defined.

(** C1 as stated fails where a required key is absent from the mapping:
    on the empty mapping all six required fields are missing, yet
    [validate] records no error (it raises [KeyError]) and the [is_valid]
    query that follows does not return [False]. *)
Lemma validate_required_fields_counterexample :
  (forall f, f ∈ _required_fields -> _data new_package !! f = None) /\
  validate new_package = (new_package, Raise (KeyError "name")) /\
  is_valid (validate new_package).1 = (new_package, Raise (KeyError "name")).
Proof.
  split; [intros f _; apply lookup_empty |].
  split; reflexivity.
Qed.

(** ** The validity flag and the list of errors *)

(** C2, as amended.  When a validation pass that started with the validity
    flag unset has returned, [is_valid] returns [True] if and only if the
    list of errors is empty; and the verdict is the same whatever the list
    of warnings was. *)
Theorem is_valid_iff_no_errors p :
  _is_valid p = false -> (validate p).2 = Ok tt ->
  exists b,
    is_valid (validate p).1 = ((validate p).1, Ok b) /\
    (b = true <-> _errors (validate p).1 = []) /\
    (forall ws, (is_valid (validate (with_warnings ws p)).1).2 = Ok b).
Proof.
  intros Hv Hok.
  assert (Hw : forall ws, validate_findings (_data (with_warnings ws p))
                          = validate_findings (_data p)) by reflexivity.
  exists (bool_decide (_errors (validate p).1 = [])).
  split; [| split].
  - revert Hok. rewrite validate_run.
    destruct (validate_findings (_data p)) as [[es ws] [[] | e |]];
      cbn [fst snd]; try discriminate.
    intros _. rewrite is_valid_validated by reflexivity. simpl.
    rewrite Hv. by case_bool_decide.
  - by rewrite bool_decide_eq_true.
  - intros ws0. revert Hok. rewrite !validate_run, Hw.
    destruct (validate_findings (_data p)) as [[es ws] [[] | e |]];
      cbn [fst snd]; try discriminate.
    intros _. rewrite is_valid_validated by reflexivity. simpl.
    rewrite Hv. by case_bool_decide.
Qed.

Lemma is_valid_iff_no_errors_witness :
  _is_valid sample_with_empty_fields = false /\
  (validate sample_with_empty_fields).2 = Ok tt /\
  exists b,
    is_valid (validate sample_with_empty_fields).1
    = ((validate sample_with_empty_fields).1, Ok b) /\
    (b = true <-> _errors (validate sample_with_empty_fields).1 = []) /\
    (forall ws,
       (is_valid (validate (with_warnings ws sample_with_empty_fields)).1).2
       = Ok b).
Proof.
  split; [reflexivity |].
  split; [vm_compute; reflexivity |].
  apply is_valid_iff_no_errors; [reflexivity | vm_compute; reflexivity].
Defined.

(** C2 as stated fails when [validate] is called again after a field was
    changed: the second pass appends errors, yet the flag stays set. *)
Lemma is_valid_iff_no_errors_counterexample :
  let p1 := (validate (package_of sample_fields)).1 in
  let p2 := (setitem "name" (VStr "") p1).1 in
  (validate p2).2 = Ok tt /\
  is_valid (validate p2).1 = ((validate p2).1, Ok true) /\
  _errors (validate p2).1
  = ["name field is required"; "package name must be alphanumeric"].
Proof. vm_compute. repeat split. Qed.

(** ** What [load] leaves alone *)

Lemma preserves_ret {S A} (P : S -> Prop) (a : A) : preserves P (ret a).
Proof. by intros s. Qed.

Lemma preserves_raise {S A} (P : S -> Prop) e : preserves P (@raise S A e).
Proof. by intros s. Qed.

Lemma preserves_bind {S A B} (P : S -> Prop) (m : M S A) (k : A -> M S B) :
  preserves P m -> (forall a, preserves P (k a)) -> preserves P (bind m k).
Proof.
  intros Hm Hk s Hs. unfold bind. specialize (Hm s Hs).
  destruct (m s) as [s' [a | e |]]; simpl in *; try done.
  by apply Hk.
Qed.

Lemma preserves_for_each {S A} (P : S -> Prop) (l : list A) body :
  (forall x, preserves P (body x)) -> preserves P (for_each l body).
Proof.
  intros Hb. induction l as [| x l IH]; simpl.
  - apply preserves_ret.
  - apply preserves_bind; [apply Hb | intros _; apply IH].
Qed.

Lemma preserves_when {S} (P : S -> Prop) c (m : M S unit) :
  preserves P m -> preserves P (when c m).
Proof. intros Hm. destruct c; [exact Hm | apply preserves_ret]. Qed.

Lemma preserves_in_world {A} (Q : Package -> Prop) (m : M World A) :
  preserves (fun s => Q s.1) (in_world m).
Proof.
  intros [p w] H. unfold in_world; simpl in *. by destruct (m w).
Qed.

Lemma preserves_in_pkg {A} (Q : Package -> Prop) (m : M Package A) :
  preserves Q m -> preserves (fun s => Q s.1) (in_pkg m).
Proof.
  intros Hm [p w] H. unfold in_pkg; simpl in *. specialize (Hm p H).
  by destruct (m p).
Qed.

Section LoadFacts.

Variable parsepkgbuild :
  option string -> string -> gmap string string -> option (list string).
Variable py_dict : string -> option (gmap string value).
Variable module_file : string.

Local Abbreviation load' := (load parsepkgbuild py_dict module_file).
Local Abbreviation call' := (call parsepkgbuild py_dict module_file).
Local Abbreviation session' := (session parsepkgbuild py_dict module_file).

Lemma load_extract_preserves (Q : Package -> Prop) file :
  preserves (fun s => Q s.1) (load_extract file).
Proof.
  unfold load_extract. destruct (endswith file ".tar.gz");
    [| apply preserves_ret].
  apply preserves_bind; [apply preserves_in_world | intros tar].
  destruct (find_pkgbuild (getnames tar)) as [[| c m] |];
    try apply preserves_raise.
  apply preserves_bind; [apply preserves_in_world | intros directory].
  apply preserves_bind; [apply preserves_in_world | intros _].
  apply preserves_ret.
Qed.

(** [load] touches no attribute but the field mapping. *)
Lemma load_preserves v file :
  preserves (fun s => verdict s.1 = v) (load' file).
Proof.
  unfold load.
  apply preserves_bind; [by intros s | intros script_dir].
  apply preserves_bind;
    [apply (load_extract_preserves (fun p => verdict p = v)) | intros fi].
  apply preserves_bind;
    [apply (preserves_in_world (fun p => verdict p = v)) | intros process].
  apply preserves_bind;
    [apply (preserves_in_world (fun p => verdict p = v)) | intros _].
  apply preserves_bind;
    [apply (preserves_in_world (fun p => verdict p = v)) | intros lines].
  apply preserves_bind.
  - apply (preserves_in_pkg (fun p => verdict p = v)).
    apply preserves_for_each. intros expression.
    apply preserves_bind.
    + unfold exec_dict. destruct (py_dict (rstrip expression));
        [apply preserves_ret | apply preserves_raise].
    + intros temp. by intros p.
  - intros _. apply preserves_when.
    apply (preserves_in_world (fun p => verdict p = v)).
Qed.

Lemma returning_state {S A} (f : A -> returned) (m : M S A) s :
  (returning f m s).1 = (m s).1.
Proof. unfold returning, bind. by destruct (m s) as [s' [a | e |]]. Qed.

Lemma in_pkg_state {A} (m : M Package A) s :
  (in_pkg m s).1 = ((m s.1).1, s.2).
Proof. unfold in_pkg. by destruct (m s.1). Qed.

(** Once validated, only a direct call of [validate] can change the
    verdict or the findings. *)
Lemma call_keeps_verdict c s :
  calls_validate c = false -> _validated s.1 = true ->
  verdict (call' c s).1.1 = verdict s.1.
Proof.
  intros Hc Hv. destruct c; simpl; try done;
    rewrite ?returning_state, ?in_pkg_state; simpl; try done.
  - by apply (load_preserves (verdict s.1) file s).
  - by rewrite is_valid_validated.
  - unfold getitem. by destruct (_data s.1 !! key).
Qed.

Lemma session_keeps_verdict cs s :
  existsb calls_validate cs = false -> _validated s.1 = true ->
  verdict (session' cs s).1 = verdict s.1.
Proof.
  revert s. induction cs as [| c cs IH]; intros s Hcs Hv; simpl; [done |].
  simpl in Hcs. apply orb_false_elim in Hcs as [Hc Hcs].
  pose proof (call_keeps_verdict c s Hc Hv) as Hk.
  assert (Hv' : _validated (call' c s).1.1 = true).
  { unfold verdict in Hk. injection Hk as H1 _ _ _. congruence. }
  destruct (call' c s) as [s' [r | e |]]; simpl in *.
  - rewrite IH; done.
  - rewrite IH; done.
  - done.
Qed.

End LoadFacts.

(** ** Memoization *)

Lemma is_valid_returns p b :
  (is_valid p).2 = Ok b ->
  _validated (is_valid p).1 = true /\ _is_valid (is_valid p).1 = b.
Proof.
  unfold is_valid, bind. destruct (_validated p) eqn:Hv; simpl.
  - intros [= <-]. by rewrite Hv.
  - rewrite validate_run.
    destruct (validate_findings (_data p)) as [[es ws] [[] | e |]];
      simpl; try discriminate.
    by intros [= <-].
Qed.

(** C3, as amended.  The validity query is memoized: once [is_valid] has
    returned a verdict, then after any further calls of the public methods
    other than a direct call of [validate] -- field assignments, queries,
    even another [load] -- [is_valid] returns that same verdict, and the
    lists of errors and warnings are as the first pass left them. *)
Theorem is_valid_memoized parsepkgbuild py_dict module_file p w b cs :
  (is_valid p).2 = Ok b -> existsb calls_validate cs = false ->
  let p1 := (is_valid p).1 in
  let s' := session parsepkgbuild py_dict module_file cs (p1, w) in
  is_valid s'.1 = (s'.1, Ok b) /\
  _errors s'.1 = _errors p1 /\ _warnings s'.1 = _warnings p1.
Proof.
  intros Hb Hcs p1 s'.
  destruct (is_valid_returns p b Hb) as [Hv Hi].
  pose proof (session_keeps_verdict parsepkgbuild py_dict module_file
                cs (p1, w) Hcs Hv) as Hk.
  fold s' in Hk. unfold verdict in Hk. simpl in Hk.
  injection Hk as H1 H2 H3 H4.
  rewrite is_valid_validated by (rewrite H1; exact Hv).
  split; [| by split]. subst p1. by rewrite H2, Hi.
Qed.

Lemma is_valid_memoized_witness :
  (is_valid sample_with_empty_fields).2 = Ok false /\
  existsb calls_validate
    [CallSetItem "arch" (VList ["any"]);
     CallSetItem "description" (VStr "greets"); CallIsValid; CallGetErrors]
  = false /\
  let p1 := (is_valid sample_with_empty_fields).1 in
  let s' := session cat_evaluator keyval_dict "/srv/aur/Package/pkgbuild.py"
              [CallSetItem "arch" (VList ["any"]);
               CallSetItem "description" (VStr "greets"); CallIsValid;
               CallGetErrors] (p1, sample_world) in
  is_valid s'.1 = (s'.1, Ok false) /\
  _errors s'.1 = _errors p1 /\ _warnings s'.1 = _warnings p1.
Proof.
  split; [vm_compute; reflexivity |].
  split; [reflexivity |].
  apply is_valid_memoized; [vm_compute; reflexivity | reflexivity].
Defined.

(** C3 as stated fails for [validate] itself, which has no guard: a second
    call runs the rules again and appends the same findings once more. *)
Lemma is_valid_memoized_counterexample :
  let p1 := (validate sample_with_empty_fields).1 in
  (validate sample_with_empty_fields).2 = Ok tt /\
  _errors p1 = ["description field is required"; "arch field is required"] /\
  _errors (validate p1).1
  = ["description field is required"; "arch field is required";
     "description field is required"; "arch field is required"].
Proof. vm_compute. repeat split. Qed.

(** ** The validity flag is never cleared *)

Lemma validate_keeps_valid p :
  _is_valid p = true -> _is_valid (validate p).1 = true.
Proof.
  intros H. rewrite validate_run.
  destruct (validate_findings (_data p)) as [[es ws] [[] | e |]];
    simpl; try done.
  by case_bool_decide.
Qed.

Lemma call_keeps_valid parsepkgbuild py_dict module_file c s :
  _is_valid s.1 = true ->
  _is_valid (call parsepkgbuild py_dict module_file c s).1.1 = true.
Proof.
  intros H. destruct c; simpl; try done;
    rewrite ?returning_state, ?in_pkg_state; simpl; try done.
  - pose proof (load_preserves parsepkgbuild py_dict module_file
                  (verdict s.1) file s eq_refl) as Hk.
    unfold verdict in Hk. injection Hk as _ H2 _ _. congruence.
  - by apply validate_keeps_valid.
  - unfold is_valid, bind. destruct (_validated s.1); simpl; [done |].
    pose proof (validate_keeps_valid s.1 H) as Hk.
    by destruct (validate s.1) as [p' [[] | e |]].
  - unfold getitem. by destruct (_data s.1 !! key).
Qed.

(** C10.  Once the validity flag is set, no sequence of calls of the public
    methods -- field assignments and direct calls of [validate] that append
    new errors included -- clears it. *)
Theorem valid_flag_monotone parsepkgbuild py_dict module_file cs s :
  _is_valid s.1 = true ->
  _is_valid (session parsepkgbuild py_dict module_file cs s).1 = true.
Proof.
  revert s. induction cs as [| c cs IH]; intros s H; simpl; [done |].
  pose proof (call_keeps_valid parsepkgbuild py_dict module_file c s H) as Hk.
  destruct (call parsepkgbuild py_dict module_file c s) as [s' [r | e |]];
    simpl in *; auto.
Qed.

Lemma valid_flag_monotone_witness :
  let s := ((validate (package_of sample_fields)).1, sample_world) in
  _is_valid s.1 = true /\
  _is_valid
    (session cat_evaluator keyval_dict "/srv/aur/Package/pkgbuild.py"
       [CallSetItem "name" (VStr "bad name!"); CallValidate; CallIsValid] s).1
  = true.
Proof.
  split; [vm_compute; reflexivity |].
  apply valid_flag_monotone. vm_compute; reflexivity.
Defined.

(** ** Rules 2 and 3: the package name *)

Lemma name_class_spec c : name_class c = spec_class c.
Proof.
  unfold name_class, spec_class, is_word.
  destruct (is_lower c), (is_upper c), (is_digit c),
    (bool_decide (c = "_"%char)), (bool_decide (c = "-"%char)); reflexivity.
Qed.

Lemma all_chars_ext (f g : ascii -> bool) s :
  (forall c, f c = g c) -> all_chars f s = all_chars g s.
Proof. intros E. induction s as [| c r IH]; simpl; [done |]. by rewrite E, IH. Qed.

Lemma skip_class_all cls s : all_chars cls s = true -> skip_class cls s = "".
Proof.
  induction s as [| c r IH]; simpl; [done |].
  intros [Hc Hr]%andb_prop. rewrite Hc. by apply IH.
Qed.

Lemma at_dollar_skip_class cls s :
  at_dollar (skip_class cls s) = true ->
  all_chars cls s = true \/ endswith s newline = true.
Proof.
  induction s as [| c r IH]; simpl; [by left |].
  destruct (cls c) eqn:Hc; simpl.
  - intros H. destruct (IH H) as [Ha | He]; [by left | right].
    rewrite He. by rewrite orb_true_r.
  - unfold at_dollar. intros [H | H]%orb_prop.
    + by apply bool_decide_eq_true in H.
    + right. by rewrite H.
Qed.

Lemma name_re_match_full s : spec_name_match s = true -> name_re_match s = true.
Proof.
  unfold spec_name_match. destruct s as [| c r]; simpl; [done |].
  intros [Hc Hr]%andb_prop. rewrite name_class_spec, Hc. simpl.
  rewrite skip_class_all; [done |].
  by rewrite (all_chars_ext _ spec_class) by apply name_class_spec.
Qed.

Lemma name_re_match_fails s :
  spec_name_match s = false -> endswith s newline = false ->
  name_re_match s = false.
Proof.
  unfold spec_name_match. destruct s as [| c r]; simpl; [done |].
  intros Hs He. apply orb_false_elim in He as [_ He].
  rewrite name_class_spec. destruct (spec_class c); simpl in *; [| done].
  destruct (at_dollar (skip_class name_class r)) eqn:Hd; [| done].
  apply at_dollar_skip_class in Hd as [Ha | Hn]; [| congruence].
  rewrite (all_chars_ext _ spec_class) in Ha by apply name_class_spec.
  congruence.
Qed.

Lemma upper_not_lower_class c : is_upper c = true -> lower_class c = false.
Proof.
  destruct c as [[] [] [] [] [] [] [] []]; vm_compute; congruence.
Qed.

Lemma lower_re_match_upper s : starts_upper s = true -> lower_re_match s = false.
Proof. destruct s as [| c r]; simpl; [done |]. apply upper_not_lower_class. Qed.

Lemma occurrences_required_errors_other d msg :
  msg ∉ required_msg <$> _required_fields ->
  occurrences msg (required_errors d) = 0.
Proof.
  intros H. apply count_occ_not_In. intros Hin. apply H.
  apply list_elem_of_In in Hin.
  unfold required_errors in Hin.
  apply list_elem_of_fmap in Hin as (f & -> & Hf).
  apply list_elem_of_fmap. exists f. split; [done |].
  apply list_elem_of_In in Hf. apply filter_In in Hf as [Hf _].
  by apply list_elem_of_In.
Qed.

Lemma occurrences_checksum_errors_other d msg :
  msg ∉ checksum_msg <$> checksum_fields ->
  occurrences msg (checksum_errors d) = 0.
Proof.
  intros H. apply count_occ_not_In. intros Hin. apply H.
  apply list_elem_of_In in Hin.
  unfold checksum_errors in Hin.
  apply list_elem_of_fmap in Hin as (f & -> & Hf).
  apply list_elem_of_fmap. exists f. split; [done |].
  apply list_elem_of_In in Hf. apply filter_In in Hf as [Hf _].
  by apply list_elem_of_In.
Qed.

(** Membership in a list of literal messages, by evaluation. *)
Ltac not_listed :=
  match goal with
  | |- ?x ∉ ?l => apply (bool_decide_eq_false_1 (x ∈ l)); vm_compute; reflexivity
  end.

Lemma occurrences_name_error d s :
  occurrences name_error
    (required_errors d ++ name_errors s ++ checksum_errors d
       ++ sources_errors d)
  = if name_re_match s then 0 else 1.
Proof.
  rewrite !occurrences_app.
  rewrite occurrences_required_errors_other by not_listed.
  rewrite occurrences_checksum_errors_other by not_listed.
  unfold name_errors, sources_errors.
  destruct (name_re_match s),
    (field_truthy d "source" && negb (found_sums d)); reflexivity.
Qed.

Lemma occurrences_lower_warning d s :
  occurrences lower_warning (name_warnings s ++ description_warnings d)
  = if name_re_match s && negb (lower_re_match s) then 1 else 0.
Proof.
  rewrite occurrences_app. unfold name_warnings, description_warnings.
  destruct (name_re_match s && negb (lower_re_match s)),
    (field_truthy d "description" && (80 <? field_len d "description"));
    reflexivity.
Qed.

(** Where the two name patterns do as their messages say.  On a
    descriptor whose mapping binds every key [validate] reads, with [name]
    bound to the string [s]: if [s] does not match [[A-Za-z0-9_-]+] in full
    and does not end in a newline, [validate] appends the name error
    exactly once and no lower-case warning; if [s] matches in full and
    begins with an upper-case letter, [validate] appends no name error and
    the lower-case warning exactly once. *)
Lemma validate_name_rule p s :
  complete (_data p) = true -> _data p !! "name" = Some (VStr s) ->
  exists es ws,
    _errors (validate p).1 = _errors p ++ es /\
    _warnings (validate p).1 = _warnings p ++ ws /\
    (spec_name_match s = false -> endswith s newline = false ->
       occurrences name_error es = 1 /\ occurrences lower_warning ws = 0) /\
    (spec_name_match s = true -> starts_upper s = true ->
       occurrences name_error es = 0 /\ occurrences lower_warning ws = 1).
Proof.
  intros Hc Hn. rewrite (validate_complete p s Hc Hn). simpl.
  eexists _, _. split; [reflexivity |]. split; [reflexivity |].
  rewrite occurrences_name_error, occurrences_lower_warning.
  split.
  - intros Hs He. by rewrite (name_re_match_fails s Hs He).
  - intros Hs Hu.
    by rewrite (name_re_match_full s Hs), (lower_re_match_upper s Hu).
Qed.

Lemma validate_name_rule_witness :
  complete (_data (sample_named "My_Package-1")) = true /\
  _data (sample_named "My_Package-1") !! "name" = Some (VStr "My_Package-1") /\
  exists es ws,
    _errors (validate (sample_named "My_Package-1")).1
    = _errors (sample_named "My_Package-1") ++ es /\
    _warnings (validate (sample_named "My_Package-1")).1
    = _warnings (sample_named "My_Package-1") ++ ws /\
    (spec_name_match "My_Package-1" = false ->
     endswith "My_Package-1" newline = false ->
       occurrences name_error es = 1 /\ occurrences lower_warning ws = 0) /\
    (spec_name_match "My_Package-1" = true ->
     starts_upper "My_Package-1" = true ->
       occurrences name_error es = 0 /\ occurrences lower_warning ws = 1).
Proof.
  split; [vm_compute; reflexivity |].
  split; [vm_compute; reflexivity |].
  apply validate_name_rule; vm_compute; reflexivity.
Defined.

(** C4 fails on the code.  The name [aB] matches [[A-Za-z0-9_-]+] in full
    and is not all lower case, yet [validate] appends no lower-case
    warning: the second pattern, unlike the first, has no [$], and [match]
    anchors it at the start of the name only.  The name [My_Package-1],
    which begins with an upper-case letter, does get the warning. *)
Theorem validate_misses_lower_warning :
  spec_name_match "aB" = true /\ all_lowercase "aB" = false /\
  validate (sample_named "aB")
  = (flagged (sample_named "aB"), Ok tt) /\
  _errors (validate (sample_named "aB")).1 = [] /\
  _warnings (validate (sample_named "aB")).1 = [] /\
  _warnings (validate (sample_named "My_Package-1")).1 = [lower_warning].
Proof. vm_compute. repeat split. Qed.

(** ** Rules 5 and 6: sources and checksums *)

Lemma occurrences_checksum_msg d s c :
  c ∈ checksum_fields ->
  occurrences (checksum_msg c)
    (required_errors d ++ name_errors s ++ checksum_errors d
       ++ sources_errors d)
  = if mismatch d c then 1 else 0.
Proof.
  intros Hc. rewrite !occurrences_app.
  rewrite (occurrences_checksum_errors d c Hc).
  unfold checksum_fields in Hc.
  repeat (apply elem_of_cons in Hc as [-> | Hc]);
    [.. | by apply not_elem_of_nil in Hc];
    rewrite occurrences_required_errors_other by not_listed;
    unfold name_errors, sources_errors;
    destruct (name_re_match s),
      (field_truthy d "source" && negb (found_sums d));
    simpl; lia.
Qed.

Lemma occurrences_missing_sums d s :
  occurrences missing_sums_error
    (required_errors d ++ name_errors s ++ checksum_errors d
       ++ sources_errors d)
  = if field_truthy d "source" && negb (found_sums d) then 1 else 0.
Proof.
  rewrite !occurrences_app.
  rewrite occurrences_required_errors_other by not_listed.
  rewrite occurrences_checksum_errors_other by not_listed.
  unfold name_errors, sources_errors.
  destruct (name_re_match s),
    (field_truthy d "source" && negb (found_sums d)); reflexivity.
Qed.

(** C5, as amended.  On a descriptor whose mapping binds every key
    [validate] reads (and [name] to a string), [validate] appends the
    mismatch error of a checksum field exactly once when that field is
    bound to a non-empty value whose length differs from that of [source],
    and not at all otherwise; and it appends the missing-checksums error
    exactly once when [source] is non-empty and all five checksum fields
    are empty, and not at all otherwise. *)
Theorem validate_checksum_rule p :
  complete (_data p) = true ->
  exists es,
    _errors (validate p).1 = _errors p ++ es /\
    (forall c, c ∈ checksum_fields ->
       occurrences (checksum_msg c) es
       = if mismatch (_data p) c then 1 else 0) /\
    occurrences missing_sums_error es
    = if field_truthy (_data p) "source" && negb (found_sums (_data p))
      then 1 else 0.
Proof.
  intros Hc. destruct (complete_name _ Hc) as [s Hn].
  rewrite (validate_complete p s Hc Hn). simpl.
  eexists. split; [reflexivity |]. split.
  - intros c Hin. by apply occurrences_checksum_msg.
  - apply occurrences_missing_sums.
Qed.

Lemma validate_checksum_rule_witness :
  complete (_data sample_short_md5sums) = true /\
  exists es,
    _errors (validate sample_short_md5sums).1
    = _errors sample_short_md5sums ++ es /\
    (forall c, c ∈ checksum_fields ->
       occurrences (checksum_msg c) es
       = if mismatch (_data sample_short_md5sums) c then 1 else 0) /\
    occurrences missing_sums_error es
    = if field_truthy (_data sample_short_md5sums) "source"
         && negb (found_sums (_data sample_short_md5sums))
      then 1 else 0.
Proof.
  split; [vm_compute; reflexivity |].
  apply validate_checksum_rule. vm_compute; reflexivity.
Defined.

(** C5 as stated fails where the checksum keys are absent from the
    mapping: with a source and none of the five checksum fields,
    [validate] raises [KeyError] and appends no error at all. *)
Lemma validate_checksum_rule_counterexample :
  _data sample_without_sums !! "source" = Some (VList ["hello-2.10.tar.gz"]) /\
  (forall c, c ∈ checksum_fields -> _data sample_without_sums !! c = None) /\
  validate sample_without_sums
  = (sample_without_sums, Raise (KeyError "md5sums")).
Proof.
  split; [vm_compute; reflexivity |]. split; [| vm_compute; reflexivity].
  intros c Hc. unfold checksum_fields in Hc.
  repeat (apply elem_of_cons in Hc as [-> | Hc]);
    [.. | by apply not_elem_of_nil in Hc]; vm_compute; reflexivity.
Qed.

(** ** Keys absent from the mapping *)

Lemma required_findings_cases d (l : list string) :
  exists es r,
    each_findings l (fun field =>
      then_findings (lookup_findings d field) (fun v =>
        error_if (negb (truthy v)) (required_msg field)))
    = (es, [], r) /\
    (forall m, m ∈ es ->
       exists f, f ∈ l /\ m = required_msg f /\ is_Some (d !! f)) /\
    ((Forall (fun k => is_Some (d !! k)) l /\ r = Ok tt) \/
     (exists k, k ∈ l /\ d !! k = None /\ r = Raise (KeyError k))).
Proof.
  induction l as [| k l (es & r & IH & Hes & Hr)]; simpl.
  - exists [], (Ok tt). split; [done |]. split; [| by left].
    intros m Hm. by apply not_elem_of_nil in Hm.
  - rewrite IH. unfold lookup_findings.
    destruct (d !! k) as [v |] eqn:Hk; simpl.
    + exists ((if negb (truthy v) then [required_msg k] else []) ++ es), r.
      split; [done |]. split.
      * intros m [Hm | Hm]%elem_of_app.
        -- exists k. split; [left |].
           destruct (truthy v); simpl in Hm;
             [by apply not_elem_of_nil in Hm |].
           apply list_elem_of_singleton in Hm. by rewrite Hk.
        -- destruct (Hes m Hm) as (f & Hf & -> & Hb).
           exists f. split; [by right | done].
      * destruct Hr as [[Hall ->] | (k' & Hk' & Hn & ->)].
        -- left. split; [| done]. constructor; [by rewrite Hk | done].
        -- right. exists k'. split; [by right | done].
    + exists [], (Raise (KeyError k)). split; [done |]. split.
      * intros m Hm. by apply not_elem_of_nil in Hm.
      * right. exists k. split; [left | done].
Qed.

Lemma checksum_findings_cases d (l : list string) b :
  exists es r,
    fold_findings l (fun found_sums checksum =>
      then_findings (lookup_findings d checksum) (fun c =>
        if truthy c then
          then_findings (lookup_findings d "source") (fun src =>
            then_findings
              (error_if (negb (py_len c =? py_len src)) (checksum_msg checksum))
              (fun _ => ([], [], Ok true)))
        else ([], [], Ok found_sums))) b
    = (es, [], r) /\
    (forall m, m ∈ es -> m ∈ checksum_msg <$> l) /\
    ((Forall (fun k => is_Some (d !! k)) l /\ exists b', r = Ok b') \/
     (exists k, (k ∈ l \/ k = "source") /\ d !! k = None
                /\ r = Raise (KeyError k))).
Proof.
  match goal with
  | |- exists es r, fold_findings _ ?f _ = _ /\ _ => set (body := f)
  end.
  revert b. induction l as [| k l IH]; intros b; simpl.
  - exists [], (Ok b). split; [done |]. split; [| left; eauto].
    intros m Hm. by apply not_elem_of_nil in Hm.
  - unfold body at 1. unfold lookup_findings.
    destruct (d !! k) as [c |] eqn:Hk; simpl.
    + destruct (truthy c); simpl.
      * destruct (d !! "source") as [src |] eqn:Hs; simpl.
        -- destruct (IH true) as (es & r & -> & Hes & Hr).
           eexists _, r. split; [reflexivity |]. split.
           ++ intros m [Hm | Hm]%elem_of_app.
              ** rewrite app_nil_r in Hm.
                 destruct (negb (py_len c =? py_len src)); simpl in Hm;
                   [| by apply not_elem_of_nil in Hm].
                 apply list_elem_of_singleton in Hm. subst m.
                 left.
              ** right. by apply Hes.
           ++ destruct Hr as [[Hall Hb] | (k' & Hk' & Hn & ->)].
              ** left. split; [| done]. constructor; [by rewrite Hk | done].
              ** right. exists k'. split; [| done].
                 destruct Hk' as [Hk' | ->]; [left; by right | by right].
        -- exists [], (Raise (KeyError "source")). split; [done |]. split.
           ++ intros m Hm. by apply not_elem_of_nil in Hm.
           ++ right. exists "source". split; [by right | done].
      * destruct (IH b) as (es & r & -> & Hes & Hr).
        exists es, r. split; [done |]. split.
        -- intros m Hm. right. by apply Hes.
        -- destruct Hr as [[Hall Hb] | (k' & Hk' & Hn & ->)].
           ++ left. split; [| done]. constructor; [by rewrite Hk | done].
           ++ right. exists k'. split; [| done].
              destruct Hk' as [Hk' | ->]; [left; by right | by right].
    + exists [], (Raise (KeyError k)). split; [done |]. split.
      * intros m Hm. by apply not_elem_of_nil in Hm.
      * right. exists k. split; [left; left | done].
Qed.

Lemma complete_intro d s src :
  Forall (fun k => is_Some (d !! k)) _required_fields ->
  Forall (fun k => is_Some (d !! k)) checksum_fields ->
  d !! "source" = Some src -> d !! "name" = Some (VStr s) ->
  complete d = true.
Proof.
  intros Hr Hc Hs Hn. unfold complete. rewrite Hn, andb_true_r.
  apply forallb_forall. intros k Hk. apply bool_decide_eq_true.
  unfold validate_keys in Hk. apply in_app_or in Hk as [Hk | Hk].
  - rewrite Forall_forall in Hr. by apply Hr, list_elem_of_In.
  - destruct Hk as [<- | Hk]; [by rewrite Hs |].
    rewrite Forall_forall in Hc. by apply Hc, list_elem_of_In.
Qed.

Lemma name_error_other : name_error ∈ other_errors.
Proof. left. Qed.

Lemma checksum_msg_other m :
  m ∈ checksum_msg <$> checksum_fields -> m ∈ other_errors.
Proof. intros H. right. apply elem_of_app. by left. Qed.

Lemma missing_sums_other : missing_sums_error ∈ other_errors.
Proof. right. apply elem_of_app. right. left. Qed.

(** How a run of the rules ends, on any mapping. *)
Lemma validate_findings_cases d :
  exists es ws r,
    validate_findings d = (es, ws, r) /\
    (forall m, m ∈ es ->
       (exists f, f ∈ _required_fields /\ m = required_msg f
                  /\ is_Some (d !! f))
       \/ m ∈ other_errors) /\
    ((complete d = true /\ r = Ok tt) \/
     (exists k, k ∈ validate_keys /\ d !! k = None /\ r = Raise (KeyError k)) \/
     ((exists l, d !! "name" = Some (VList l)) /\ r = Raise TypeError)).
Proof.
  unfold validate_findings, required_findings, checksum_findings.
  destruct (required_findings_cases d _required_fields)
    as (es1 & r1 & -> & Hes1 & Hr1).
  destruct (checksum_findings_cases d checksum_fields false)
    as (es4 & r4 & -> & Hes4 & Hr4).
  destruct Hr1 as [[Hall ->] | (k & Hk & Hn & ->)]; simpl.
  2: { exists es1, [], (Raise (KeyError k)). split; [done |]. split.
       - intros m Hm. left. by apply Hes1.
       - right; left. exists k. split; [by apply required_in_keys | done]. }
  assert (Hbound : forall k, k ∈ _required_fields -> is_Some (d !! k))
    by (by apply Forall_forall).
  destruct (Hbound "name") as [n Hname];
    [apply list_elem_of_In; simpl; tauto |].
  destruct (Hbound "description") as [v Hdesc];
    [apply list_elem_of_In; simpl; tauto |].
  unfold name_findings. rewrite Hname.
  destruct n as [s | l].
  2: { simpl. eexists _, _, (Raise TypeError). split; [reflexivity |]. split.
       - intros m Hm. rewrite app_nil_r in Hm. left. by apply Hes1.
       - right; right. split; [by exists l | done]. }
  unfold description_findings, lookup_findings at 1. rewrite Hdesc. simpl.
  assert (Hparts : forall m tl,
    (forall m', m' ∈ tl -> m' ∈ other_errors) ->
    m ∈ es1 ++ (if name_re_match s then [] else [name_error]) ++ [] ++ es4 ++ tl ->
    (exists f, f ∈ _required_fields /\ m = required_msg f /\ is_Some (d !! f))
    \/ m ∈ other_errors).
  { intros m tl Htl [Hm | [Hm | [Hm | [Hm | Hm]%elem_of_app]%elem_of_app]
                      %elem_of_app]%elem_of_app.
    - left. by apply Hes1.
    - right. destruct (name_re_match s);
        [by apply not_elem_of_nil in Hm |].
      apply list_elem_of_singleton in Hm. subst m. apply name_error_other.
    - by apply not_elem_of_nil in Hm.
    - right. by apply checksum_msg_other, Hes4.
    - right. by apply Htl. }
  destruct Hr4 as [[Hsums [b' ->]] | (k & Hk & Hn & ->)]; simpl.
  2: { eexists _, _, (Raise (KeyError k)). split; [reflexivity |]. split.
       - intros m Hm. apply (Hparts m []).
         + intros m' Hm'. by apply not_elem_of_nil in Hm'.
         + by rewrite app_nil_r in *.
       - right; left. exists k. split; [| done].
         destruct Hk as [Hk | ->];
           [by apply checksum_in_keys | apply source_in_keys]. }
  unfold sources_findings, lookup_findings.
  destruct (d !! "source") as [src |] eqn:Hs; simpl.
  - eexists _, _, (Ok tt). split; [reflexivity |]. split.
    + intros m Hm.
      apply (Hparts m (if truthy src && negb b' then [missing_sums_error]
                       else [])); [| exact Hm].
      intros m' Hm'.
      destruct (truthy src && negb b'); simpl in Hm';
        [| by apply not_elem_of_nil in Hm'].
      apply list_elem_of_singleton in Hm'. subst m'. apply missing_sums_other.
    + left. split; [by apply (complete_intro d s src) | done].
  - eexists _, _, (Raise (KeyError "source")). split; [reflexivity |]. split.
    + intros m Hm. apply (Hparts m []).
      * intros m' Hm'. by apply not_elem_of_nil in Hm'.
      * by rewrite app_nil_r in *.
    + right; left. exists "source". split; [apply source_in_keys | done].
Qed.

Lemma string_length_app s t :
  String.length (s +:+ t) = String.length s + String.length t.
Proof.
  induction s as [| c s IH]; [done |].
  change (String c s +:+ t) with (String c (s +:+ t)). simpl. by rewrite IH.
Qed.

Lemma required_msg_inj f g : required_msg f = required_msg g -> f = g.
Proof.
  unfold required_msg. generalize " field is required". intros t.
  revert g. induction f as [| c f IH]; intros [| c' g] H; [done | | |].
  - apply (f_equal String.length) in H.
    rewrite !string_length_app in H. simpl in H. lia.
  - apply (f_equal String.length) in H.
    rewrite !string_length_app in H. simpl in H. lia.
  - change (String c (f +:+ t) = String c' (g +:+ t)) in H.
    injection H as -> H. f_equal. by apply IH.
Qed.

Lemma required_msg_not_other f :
  f ∈ validate_keys -> required_msg f ∉ other_errors.
Proof.
  intros Hf. unfold validate_keys, _required_fields, checksum_fields in Hf.
  simpl in Hf.
  repeat (apply elem_of_cons in Hf as [-> | Hf]);
    [.. | by apply not_elem_of_nil in Hf]; not_listed.
Qed.

(** C9, as amended.  On a descriptor whose mapping lacks one of the keys
    [validate] reads, [validate] does not return: it raises [KeyError] for
    an absent key -- or, when [name] is bound to a list, possibly the
    [TypeError] of the name pattern, which is tried before the checksum
    keys are read.  Either way the descriptor is not marked validated, and
    no "field is required" error is recorded for an absent key. *)
Theorem validate_absent_key p k :
  k ∈ validate_keys -> _data p !! k = None ->
  exists es ws e,
    validate p = (extend p es ws, Raise e) /\
    ((exists k', k' ∈ validate_keys /\ _data p !! k' = None
                 /\ e = KeyError k')
     \/ ((exists l, _data p !! "name" = Some (VList l)) /\ e = TypeError)) /\
    (forall f, f ∈ validate_keys -> _data p !! f = None ->
       required_msg f ∉ es).
Proof.
  intros Hk Hn.
  destruct (validate_findings_cases (_data p)) as (es & ws & r & Hf & Hes & Hr).
  rewrite validate_run, Hf.
  assert (Hmsg : forall f, f ∈ validate_keys -> _data p !! f = None ->
                           required_msg f ∉ es).
  { intros f Hfk Hfn Hin. destruct (Hes _ Hin) as [(g & Hg & E & Hb) | Ho].
    - apply required_msg_inj in E. subst g. rewrite Hfn in Hb.
      by destruct Hb.
    - by apply (required_msg_not_other f Hfk). }
  destruct Hr as [[Hc _] | [(k' & Hk' & Hn' & ->) | [Hl ->]]].
  - destruct (complete_bound _ k Hc Hk) as [v Hv]. congruence.
  - exists es, ws, (KeyError k'). split; [done |]. split; [| done].
    left. by exists k'.
  - exists es, ws, TypeError. split; [done |]. split; [| done]. by right.
Qed.

Lemma validate_absent_key_witness :
  "md5sums" ∈ validate_keys /\
  _data sample_without_sums !! "md5sums" = None /\
  exists es ws e,
    validate sample_without_sums
    = (extend sample_without_sums es ws, Raise e) /\
    ((exists k', k' ∈ validate_keys /\ _data sample_without_sums !! k' = None
                 /\ e = KeyError k')
     \/ ((exists l, _data sample_without_sums !! "name" = Some (VList l))
         /\ e = TypeError)) /\
    (forall f, f ∈ validate_keys -> _data sample_without_sums !! f = None ->
       required_msg f ∉ es).
Proof.
  assert (H : "md5sums" ∈ validate_keys)
    by (apply list_elem_of_In; simpl; tauto).
  split; [exact H |].
  split; [vm_compute; reflexivity |].
  apply (validate_absent_key sample_without_sums "md5sums" H).
  vm_compute; reflexivity.
Defined.

(** C9 as stated fails when [name] is bound to a list: with every required
    key bound and [md5sums] absent, [validate] raises [TypeError], not
    [KeyError]. *)
Lemma validate_absent_key_counterexample :
  _data sample_list_name !! "md5sums" = None /\
  validate sample_list_name = (sample_list_name, Raise TypeError).
Proof. split; vm_compute; reflexivity. Qed.

(** ** Paths: a file is found again from its directory and base name *)

Lemma string_app_cons c s t : String c s +:+ t = String c (s +:+ t).
Proof. reflexivity. Qed.

Lemma string_app_nil t : "" +:+ t = t.
Proof. reflexivity. Qed.

Lemma is_slash_eq c : is_slash c = true -> c = "/"%char.
Proof. apply bool_decide_eq_true. Qed.

Lemma split_last_slash_app p :
  (split_last_slash p).1 +:+ (split_last_slash p).2 = p.
Proof.
  induction p as [| c q IH]; simpl; [done |].
  destruct (split_last_slash q) as [[| a h] t]; simpl in *.
  - destruct (is_slash c); simpl; rewrite ?string_app_cons, ?string_app_nil;
      rewrite string_app_nil in IH; by rewrite IH.
  - rewrite !string_app_cons in *. by rewrite IH.
Qed.

Lemma split_last_slash_head p :
  (split_last_slash p).1 = "" \/ endswith_slash (split_last_slash p).1 = true.
Proof.
  induction p as [| c q IH]; simpl; [by left |].
  destruct (split_last_slash q) as [[| a h] t]; simpl in *.
  - destruct (is_slash c) eqn:Hc; simpl; [by right | by left].
  - destruct IH as [IH | IH]; [discriminate | by right].
Qed.

Lemma startswith_slash_app s t :
  s <> "" -> startswith_slash (s +:+ t) = startswith_slash s.
Proof. by destruct s. Qed.

Lemma squeeze_cons c s :
  squeeze (String c s)
  = if is_slash c && startswith_slash s then squeeze s
    else String c (squeeze s).
Proof. reflexivity. Qed.

(** A slash after a slash is not seen. *)
Lemma squeeze_slash_after h t :
  endswith_slash h = true ->
  squeeze (h +:+ "/" +:+ t) = squeeze (h +:+ t).
Proof.
  induction h as [| c r IH]; [done |].
  destruct r as [| c' r'].
  - simpl. intros Hc. apply is_slash_eq in Hc. subst c.
    rewrite !string_app_nil. destruct (startswith_slash t); reflexivity.
  - intros He. change (endswith_slash (String c' r') = true) in He.
    rewrite (string_app_cons c (String c' r')).
    rewrite (string_app_cons c (String c' r') t).
    rewrite !squeeze_cons.
    rewrite !startswith_slash_app by done.
    by rewrite (IH He).
Qed.

Lemma rstrip_slash_head c r :
  rstrip_slash (String c r) <> "" ->
  exists r', rstrip_slash (String c r) = String c r'.
Proof.
  simpl. destruct (is_slash c && bool_decide (rstrip_slash r = "")); [done |].
  eauto.
Qed.

Lemma rstrip_slash_nil_startswith r :
  r <> "" -> rstrip_slash r = "" -> startswith_slash r = true.
Proof.
  destruct r as [| c r]; [done |]. simpl. intros _.
  destruct (is_slash c); simpl; [done |]. discriminate.
Qed.

(** Stripping the slashes at the end of a directory and putting one back
    names the same file. *)
Lemma squeeze_rstrip_slash h t :
  endswith_slash h = true ->
  squeeze (rstrip_slash h +:+ "/" +:+ t) = squeeze (h +:+ t).
Proof.
  induction h as [| c r IH]; [done |].
  destruct r as [| c' r'].
  - simpl. intros Hc. rewrite Hc. simpl. apply is_slash_eq in Hc. by subst c.
  - intros He. change (endswith_slash (String c' r') = true) in He.
    specialize (IH He).
    assert (Hne : String c' r' <> "") by done.
    remember (String c' r') as r eqn:Er.
    rewrite (string_app_cons c r t), squeeze_cons.
    rewrite (startswith_slash_app r t Hne).
    change (rstrip_slash (String c r))
      with (if is_slash c && bool_decide (rstrip_slash r = "")
            then "" else String c (rstrip_slash r)).
    destruct (is_slash c) eqn:Hc.
    + rewrite !andb_true_l. case_bool_decide as Hr.
      * rewrite Hr in IH. rewrite string_app_nil in *.
        by rewrite (rstrip_slash_nil_startswith r Hne Hr).
      * rewrite string_app_cons, squeeze_cons, Hc, andb_true_l.
        rewrite (startswith_slash_app (rstrip_slash r) _ Hr).
        assert (Hs : startswith_slash (rstrip_slash r) = startswith_slash r).
        { subst r. destruct (rstrip_slash_head c' r' Hr) as [r'' ->].
          reflexivity. }
        by rewrite Hs, IH.
    + rewrite !andb_false_l.
      rewrite string_app_cons, squeeze_cons, Hc, andb_false_l. by rewrite IH.
Qed.

Lemma all_slashes_rstrip h :
  all_slashes h = false -> rstrip_slash h <> "".
Proof.
  induction h as [| c r IH]; [done |]. simpl.
  destruct (is_slash c); simpl; [| done].
  intros H. case_bool_decide as Hr; [| done]. by apply IH in H.
Qed.

(** The evaluator, started in the directory of [file] on its base name, is
    pointed at [file]. *)
Lemma descriptor_path_of_file file :
  squeeze (descriptor_path (working_dir_of file) (basename file))
  = squeeze file.
Proof.
  unfold working_dir_of, dirname, basename.
  pose proof (split_last_slash_app file) as Happ.
  pose proof (split_last_slash_head file) as Hhead.
  destruct (split_last_slash file) as [h t]. cbn [fst snd] in *.
  destruct Hhead as [-> | He].
  - rewrite string_app_nil in Happ. subst t. reflexivity.
  - assert (Hne : h <> "") by (by intros ->).
    rewrite (bool_decide_eq_false_2 (h = "")) by done.
    rewrite andb_true_l.
    destruct (all_slashes h) eqn:Ha; cbn [negb].
    + rewrite bool_decide_eq_false_2 by done. cbn [descriptor_path].
      rewrite squeeze_slash_after by done. by rewrite Happ.
    + rewrite bool_decide_eq_false_2 by (by apply all_slashes_rstrip).
      cbn [descriptor_path].
      rewrite squeeze_rstrip_slash by done. by rewrite Happ.
Qed.

(** ** Loading a plain descriptor and a tarball *)

Section LoadResults.

Variable parsepkgbuild :
  option string -> string -> gmap string string -> option (list string).
Variable py_dict : string -> option (gmap string value).
Variable module_file : string.

Local Abbreviation load' := (load parsepkgbuild py_dict module_file).
Local Abbreviation imported' := (imported parsepkgbuild py_dict).

Lemma load_plain_result file p w :
  endswith file ".tar.gz" = false ->
  ((load' file (p, w)).1.1, (load' file (p, w)).2)
  = imported' (working_dir_of file) (basename file) (files w)
             (pipe_capacity w) p.
Proof.
  intros He.
  unfold load, imported, load_extract, bind, in_world,
    in_pkg, popen, process_wait, stdout_readlines, ret, when.
  rewrite He. cbn [fst snd files pipe_capacity log].
  destruct (parsepkgbuild (working_dir_of file) (basename file) (files w))
    as [lines |]; [| reflexivity].
  cbn [fst snd files pipe_capacity log].
  destruct (output_size lines <=? pipe_capacity w); [| reflexivity].
  cbn [fst snd files pipe_capacity log].
  by destruct (import_variables py_dict lines p) as [p' [[] | e |]].
Qed.

Lemma load_archive_result file p w tar m content directory rest :
  endswith file ".tar.gz" = true ->
  archives w !! file = Some tar ->
  find_pkgbuild (getnames tar) = Some m ->
  getmember tar m = Some content ->
  temp_dirs w = directory :: rest ->
  ((load' file (p, w)).1.1, (load' file (p, w)).2)
  = imported' (working_dir_of (os_path_join directory m))
             (basename (os_path_join directory m))
             (<[squeeze (os_path_join directory m) := content]> (files w))
             (pipe_capacity w) p.
Proof.
  intros He Ha Hf Hm Ht.
  assert (Hne : exists c m', m = String c m').
  { destruct m as [| c m']; [| eauto].
    apply find_some in Hf as [_ Hf]. discriminate. }
  destruct Hne as (c & m' & ->).
  set (file' := os_path_join directory (String c m')).
  set (fs' := <[squeeze file' := content]> (files w)).
  unfold load, imported, load_extract, bind, in_world,
    in_pkg, popen, process_wait, stdout_readlines, ret, when, tarfile_open,
    mkdtemp, tar_extract, os_remove, fs_read.
  rewrite He. cbn [fst snd files pipe_capacity archives temp_dirs log set_files].
  rewrite Ha. cbn [fst snd files pipe_capacity archives temp_dirs log set_files].
  rewrite Hf. cbn [fst snd files pipe_capacity archives temp_dirs log set_files].
  rewrite Ht. cbn [fst snd files pipe_capacity archives temp_dirs log set_files].
  rewrite Hm. cbn [fst snd files pipe_capacity archives temp_dirs log set_files].
  fold file'. fold fs'.
  destruct (parsepkgbuild (working_dir_of file') (basename file') fs')
    as [lines |]; [| reflexivity].
  cbn [fst snd files pipe_capacity archives temp_dirs log set_files].
  destruct (output_size lines <=? pipe_capacity w); [| reflexivity].
  cbn [fst snd files pipe_capacity archives temp_dirs log set_files].
  destruct (import_variables py_dict lines p) as [p' [[] | e |]];
    [| reflexivity | reflexivity].
  cbn [fst snd files pipe_capacity archives temp_dirs log set_files].
  subst fs'. by rewrite lookup_insert_eq.
Qed.

(** Whatever the collaborators: when the evaluator cannot be started, or
    the import of its output raises, the file extracted from the tarball
    is still there when [load] ends. *)
Lemma load_archive_error_keeps_file file p w tar m content directory rest e :
  endswith file ".tar.gz" = true ->
  archives w !! file = Some tar ->
  find_pkgbuild (getnames tar) = Some m ->
  getmember tar m = Some content ->
  temp_dirs w = directory :: rest ->
  (load' file (p, w)).2 = Raise e ->
  fs_read (files (load' file (p, w)).1.2) (os_path_join directory m)
  = Some content.
Proof.
  intros He Ha Hf Hm Ht.
  assert (Hne : exists c m', m = String c m').
  { destruct m as [| c m']; [| eauto].
    apply find_some in Hf as [_ Hf]. discriminate. }
  destruct Hne as (c & m' & ->).
  set (file' := os_path_join directory (String c m')).
  set (fs' := <[squeeze file' := content]> (files w)).
  assert (Hfs : fs' !! squeeze file' = Some content)
    by apply lookup_insert_eq.
  unfold load, load_extract, bind, in_world,
    in_pkg, popen, process_wait, stdout_readlines, ret, when, tarfile_open,
    mkdtemp, tar_extract, os_remove, fs_read.
  rewrite He. cbn [fst snd files pipe_capacity archives temp_dirs log set_files].
  rewrite Ha. cbn [fst snd files pipe_capacity archives temp_dirs log set_files].
  rewrite Hf. cbn [fst snd files pipe_capacity archives temp_dirs log set_files].
  rewrite Ht. cbn [fst snd files pipe_capacity archives temp_dirs log set_files].
  rewrite Hm. cbn [fst snd files pipe_capacity archives temp_dirs log set_files].
  fold file'. fold fs'.
  destruct (parsepkgbuild (working_dir_of file') (basename file') fs')
    as [lines |]; [| by intros _].
  cbn [fst snd files pipe_capacity archives temp_dirs log set_files].
  destruct (output_size lines <=? pipe_capacity w); [| discriminate].
  cbn [fst snd files pipe_capacity archives temp_dirs log set_files].
  destruct (import_variables py_dict lines p) as [p' [[] | e' |]];
    [| by intros _ | discriminate].
  cbn [fst snd files pipe_capacity archives temp_dirs log set_files].
  rewrite Hfs. discriminate.
Qed.

(** Whatever the collaborators: on a plain file [load] spawns, then waits,
    and reads only once the wait is over. *)
Lemma load_plain_trace file p w :
  endswith file ".tar.gz" = false ->
  exists command,
    trace (load' file (p, w)).1.2
    = trace w
      ++ EvSpawn command (basename file) (working_dir_of file)
      :: match parsepkgbuild (working_dir_of file) (basename file) (files w)
         with
         | Some lines =>
             EvWait :: (if output_size lines <=? pipe_capacity w
                        then [EvReadlines] else [])
         | None => []
         end.
Proof.
  intros He. eexists.
  unfold load, load_extract, bind, in_world,
    in_pkg, popen, process_wait, stdout_readlines, ret, when.
  rewrite He. cbn [fst snd files pipe_capacity log trace].
  destruct (parsepkgbuild (working_dir_of file) (basename file) (files w))
    as [lines |]; [| reflexivity].
  cbn [fst snd files pipe_capacity log trace].
  destruct (output_size lines <=? pipe_capacity w);
    cbn [fst snd files pipe_capacity log trace].
  - destruct (import_variables py_dict lines p) as [p' [[] | e |]];
      simpl; by rewrite <- ?app_assoc.
  - simpl. by rewrite <- ?app_assoc.
Qed.

End LoadResults.

Lemma Package_init_fields parsepkgbuild py_dict module_file file w :
  loaded_fields (Package_init parsepkgbuild py_dict module_file file w).2
  = match (load parsepkgbuild py_dict module_file file (new_package, w)).2 with
    | Ok _ =>
        Ok (_data (load parsepkgbuild py_dict module_file file
                     (new_package, w)).1.1)
    | Raise e => Raise e
    | Hang => Hang
    end.
Proof.
  unfold Package_init.
  by destruct (load parsepkgbuild py_dict module_file file (new_package, w))
    as [[p w'] [[] | e |]].
Qed.

Lemma cat_evaluator_reads_descriptor_only : reads_descriptor_only cat_evaluator.
Proof. intros wd1 f1 fs1 wd2 f2 fs2 H. unfold cat_evaluator. by rewrite H. Qed.

Lemma find_skip {A} (f : A -> bool) l1 l2 :
  (forall x, x ∈ l1 -> f x = false) ->
  List.find f (l1 ++ l2) = List.find f l2.
Proof.
  induction l1 as [| x l1 IH]; intros H; [done |]. simpl.
  rewrite (H x) by left. apply IH. intros y Hy. apply H. by right.
Qed.

Lemma find_pkgbuild_one tar member content :
  holds_one_descriptor tar member content ->
  find_pkgbuild (getnames tar) = Some member.
Proof.
  intros (before & after & -> & Hm & Hothers).
  unfold find_pkgbuild, getnames in *. rewrite fmap_app, fmap_cons.
  rewrite find_skip.
  - simpl. by rewrite Hm.
  - intros m Hin. apply Hothers. rewrite fmap_app. apply elem_of_app.
    by left.
Qed.

Lemma getmember_one tar member content :
  holds_one_descriptor tar member content ->
  getmember tar member = Some content.
Proof.
  intros (before & after & -> & Hm & Hothers).
  unfold getmember. rewrite reverse_app, reverse_cons, <- app_assoc.
  rewrite find_skip.
  - simpl. by rewrite bool_decide_eq_true_2.
  - intros [m c] Hin. simpl. apply bool_decide_eq_false_2. intros ->.
    apply elem_of_reverse in Hin. rewrite reverse_involutive in Hin.
    assert (Hf : find_ge0 member "PKGBUILD" = false); [| congruence].
    apply Hothers. unfold getnames. rewrite fmap_app. apply elem_of_app.
    right. apply list_elem_of_fmap. exists (member, c).
    split; [reflexivity | exact Hin].
Qed.

Lemma Package_init_result parsepkgbuild py_dict module_file file w :
  (Package_init parsepkgbuild py_dict module_file file w).2
  = match (load parsepkgbuild py_dict module_file file (new_package, w)).2 with
    | Ok _ =>
        Ok (load parsepkgbuild py_dict module_file file (new_package, w)).1.1
    | Raise e => Raise e
    | Hang => Hang
    end.
Proof.
  unfold Package_init.
  by destruct (load parsepkgbuild py_dict module_file file (new_package, w))
    as [[p w'] [[] | e |]].
Qed.


Lemma sample_archive_holds_one_descriptor :
  holds_one_descriptor [("hello/", ""); ("hello/PKGBUILD", "name=hello")]
    "hello/PKGBUILD" "name=hello".
Proof.
  exists [("hello/", "")], []. split; [reflexivity |].
  split; [vm_compute; reflexivity |].
  intros m Hin. simpl in Hin.
  repeat (apply elem_of_cons in Hin as [-> | Hin]);
    [.. | by apply not_elem_of_nil in Hin]; vm_compute; reflexivity.
Defined.


(** ** The extracted file and the subprocess *)

(** C7 fails on the code.  When the import of the evaluator's output
    raises, [load] ends without removing the file it extracted: the only
    [os.remove] is on the path that returns. *)
Theorem load_leaves_extracted_file :
  (sample_init "broken.tar.gz" sample_world).2 = Raise ExecError /\
  fs_read (files (sample_init "broken.tar.gz" sample_world).1)
          "/tmp/tmpq3X9ab/hello/PKGBUILD"
  = Some "pkgname hello" /\
  trace (sample_init "broken.tar.gz" sample_world).1
  = [EvTarOpen "broken.tar.gz"; EvMkdtemp "/tmp/tmpq3X9ab";
     EvExtract "hello/PKGBUILD" "/tmp/tmpq3X9ab";
     EvSpawn "/srv/aur/Package/parsepkgbuild.sh" "PKGBUILD"
       (Some "/tmp/tmpq3X9ab/hello");
     EvWait; EvReadlines] /\
  fs_read (files (sample_init "hello.tar.gz" sample_world).1)
          "/tmp/tmpq3X9ab/hello/PKGBUILD"
  = None.
Proof. vm_compute. repeat split. Qed.

(** C8 fails on the code.  [load] waits for the evaluator to exit before it
    reads the evaluator's output; when the output does not fit in the pipe
    the wait never ends and nothing is read. *)
Theorem load_waits_before_reading :
  trace (sample_init "PKGBUILD" sample_world).1
  = [EvSpawn "/srv/aur/Package/parsepkgbuild.sh" "PKGBUILD" None;
     EvWait; EvReadlines] /\
  (sample_init "PKGBUILD" narrow_pipe_world).2 = Hang /\
  trace (sample_init "PKGBUILD" narrow_pipe_world).1
  = [EvSpawn "/srv/aur/Package/parsepkgbuild.sh" "PKGBUILD" None; EvWait].
Proof. vm_compute. repeat split. Qed.

(** * Further properties of the validator *)

(** [validate] returns exactly on the complete mappings: it returns when
    every key it reads is bound and [name] is bound to a string, and on
    every other mapping it raises. *)
Theorem validate_returns_iff_complete p :
  (validate p).2 = Ok tt <-> complete (_data p) = true.
Proof.
  split.
  - destruct (validate_findings_cases (_data p))
      as (es & ws & r & Hf & _ & Hr).
    rewrite validate_run, Hf.
    destruct Hr as [[Hc ->] | [(k & _ & _ & ->) | [_ ->]]];
      cbn [snd]; [done | discriminate | discriminate].
  - intros Hc. destruct (complete_name _ Hc) as [s Hn].
    by rewrite (validate_complete p s Hc Hn).
Qed.

(** The validator never changes the field mapping, whether it returns or
    raises, and neither does the [is_valid] query. *)
Theorem validate_keeps_fields p :
  _data (validate p).1 = _data p /\ _data (is_valid p).1 = _data p.
Proof.
  assert (H : _data (validate p).1 = _data p).
  { rewrite validate_run.
    by destruct (validate_findings (_data p)) as [[es ws] [[] | e |]]. }
  split; [exact H |].
  unfold is_valid, bind. destruct (_validated p); simpl; [done |].
  by destruct (validate p) as [p' [[] | e |]].
Qed.

Lemma fmap_filter_nil (g : string -> string) (P : string -> bool) l :
  g <$> List.filter P l = [] <-> existsb P l = false.
Proof.
  induction l as [| x l IH]; simpl; [done |].
  destruct (P x); simpl; [| exact IH]. split; discriminate.
Qed.

Lemma no_errors_iff_passes d s :
  required_errors d ++ name_errors s ++ checksum_errors d ++ sources_errors d
  = [] <-> passes_rules d s = true.
Proof.
  unfold passes_rules, required_errors, checksum_errors.
  rewrite !andb_true_iff, !negb_true_iff, <- !fmap_filter_nil.
  unfold name_errors, sources_errors.
  split.
  - intros (H1 & (H2 & (H3 & H4)%app_eq_nil)%app_eq_nil)%app_eq_nil.
    repeat split; try done.
    + by destruct (name_re_match s).
    + destruct (field_truthy d "source"), (found_sums d); done.
  - intros (((-> & H2) & ->) & H4). rewrite H2. simpl.
    by destruct (field_truthy d "source"), (found_sums d).
Qed.

(** Which descriptors are valid.  On a complete mapping, with no errors
    recorded before and the flag unset, the [is_valid] query after a
    validation pass returns [True] exactly when no required field is
    empty, the name matches the first pattern, no non-empty checksum field
    differs in length from [source], and [source] is empty or some
    checksum field is not.  Warnings play no part. *)
Theorem valid_iff_passes_rules p s :
  complete (_data p) = true -> _data p !! "name" = Some (VStr s) ->
  _errors p = [] -> _is_valid p = false ->
  is_valid (validate p).1
  = ((validate p).1, Ok (passes_rules (_data p) s)).
Proof.
  intros Hc Hn He Hv. rewrite (validate_complete p s Hc Hn).
  rewrite is_valid_validated by reflexivity. cbn [fst]. f_equal. f_equal.
  unfold flagged, extend; simpl. rewrite He, Hv. simpl.
  destruct (passes_rules (_data p) s) eqn:Hp.
  - apply no_errors_iff_passes in Hp. by rewrite Hp.
  - case_bool_decide as Hnil; [| done].
    apply no_errors_iff_passes in Hnil. congruence.
Qed.

Lemma valid_iff_passes_rules_witness :
  complete (_data (sample_named "My_Package-1")) = true /\
  _data (sample_named "My_Package-1") !! "name" = Some (VStr "My_Package-1") /\
  _errors (sample_named "My_Package-1") = [] /\
  _is_valid (sample_named "My_Package-1") = false /\
  is_valid (validate (sample_named "My_Package-1")).1
  = ((validate (sample_named "My_Package-1")).1,
     Ok (passes_rules (_data (sample_named "My_Package-1")) "My_Package-1")).
Proof.
  do 4 (split; [vm_compute; reflexivity |]).
  apply valid_iff_passes_rules; vm_compute; reflexivity.
Defined.

(** A descriptor in which the rules find nothing: on a complete mapping
    whose name begins with a character of [[a-z0-9_-]], whose description
    is empty or at most 80 long and which passes the error rules, a
    validation pass appends no error and no warning, and a package that
    had no errors is valid afterwards. *)
Theorem validate_finds_nothing p s :
  complete (_data p) = true -> _data p !! "name" = Some (VStr s) ->
  passes_rules (_data p) s = true -> starts_lower_class s = true ->
  field_truthy (_data p) "description"
  && (80 <? field_len (_data p) "description") = false ->
  validate p = (flagged p, Ok tt) /\
  (_errors p = [] -> _is_valid (validate p).1 = true).
Proof.
  intros Hc Hn Hp Hl Hd. rewrite (validate_complete p s Hc Hn).
  apply no_errors_iff_passes in Hp as ->.
  assert (Hw : name_warnings s ++ description_warnings (_data p) = []).
  { unfold name_warnings, description_warnings. rewrite Hd.
    replace (lower_re_match s) with true by (by destruct s).
    by rewrite andb_false_r. }
  rewrite Hw. rewrite extend_nil. split; [done |].
  intros He. simpl. by rewrite He.
Qed.

Lemma validate_finds_nothing_witness :
  complete (_data (package_of sample_fields)) = true /\
  _data (package_of sample_fields) !! "name" = Some (VStr "hello") /\
  passes_rules (_data (package_of sample_fields)) "hello" = true /\
  starts_lower_class "hello" = true /\
  field_truthy (_data (package_of sample_fields)) "description"
  && (80 <? field_len (_data (package_of sample_fields)) "description")
  = false /\
  validate (package_of sample_fields)
  = (flagged (package_of sample_fields), Ok tt) /\
  (_errors (package_of sample_fields) = [] ->
   _is_valid (validate (package_of sample_fields)).1 = true).
Proof.
  do 5 (split; [vm_compute; reflexivity |]).
  apply (validate_finds_nothing (package_of sample_fields) "hello");
    vm_compute; reflexivity.
Defined.

(** Rule 4.  On a complete mapping the description warning is appended
    exactly once when the description is non-empty and longer than 80, and
    not at all otherwise; it is a warning only, never among the errors. *)
Theorem validate_description_rule p :
  complete (_data p) = true ->
  exists es ws,
    _errors (validate p).1 = _errors p ++ es /\
    _warnings (validate p).1 = _warnings p ++ ws /\
    occurrences description_warning ws
    = (if field_truthy (_data p) "description"
          && (80 <? field_len (_data p) "description")
       then 1 else 0) /\
    occurrences description_warning es = 0.
Proof.
  intros Hc. destruct (complete_name _ Hc) as [s Hn].
  rewrite (validate_complete p s Hc Hn). simpl.
  eexists _, _. split; [reflexivity |]. split; [reflexivity |]. split.
  - rewrite occurrences_app. unfold name_warnings, description_warnings.
    destruct (name_re_match s && negb (lower_re_match s)),
      (field_truthy (_data p) "description"
       && (80 <? field_len (_data p) "description")); reflexivity.
  - rewrite !occurrences_app.
    rewrite occurrences_required_errors_other by not_listed.
    rewrite occurrences_checksum_errors_other by not_listed.
    unfold name_errors, sources_errors.
    destruct (name_re_match s),
      (field_truthy (_data p) "source" && negb (found_sums (_data p)));
      reflexivity.
Qed.

(** A description of 81 characters gets the warning and stays valid; one
    of 80 characters gets none. *)
Lemma validate_description_rule_witness :
  complete (_data (sample_described 81)) = true /\
  (exists es ws,
     _errors (validate (sample_described 81)).1
     = _errors (sample_described 81) ++ es /\
     _warnings (validate (sample_described 81)).1
     = _warnings (sample_described 81) ++ ws /\
     occurrences description_warning ws
     = (if field_truthy (_data (sample_described 81)) "description"
           && (80 <? field_len (_data (sample_described 81)) "description")
        then 1 else 0) /\
     occurrences description_warning es = 0) /\
  _warnings (validate (sample_described 81)).1 = [description_warning] /\
  _warnings (validate (sample_described 80)).1 = [] /\
  _is_valid (validate (sample_described 81)).1 = true.
Proof.
  split; [vm_compute; reflexivity |].
  split; [apply validate_description_rule; vm_compute; reflexivity |].
  repeat split; vm_compute; reflexivity.
Defined.

(** The two checksum errors exclude each other.  In one pass on a complete
    mapping, the missing-checksums error and a length-mismatch error are
    never both appended: a checksum field that is there to be compared
    counts as found. *)
Theorem mismatch_excludes_missing_sums p c :
  complete (_data p) = true -> c ∈ checksum_fields ->
  exists es,
    _errors (validate p).1 = _errors p ++ es /\
    (occurrences missing_sums_error es = 0
     \/ occurrences (checksum_msg c) es = 0).
Proof.
  intros Hc Hin. destruct (complete_name _ Hc) as [s Hn].
  rewrite (validate_complete p s Hc Hn). simpl.
  eexists. split; [reflexivity |].
  rewrite occurrences_missing_sums, (occurrences_checksum_msg _ _ c Hin).
  destruct (mismatch (_data p) c) eqn:Hm; [| by right]. left.
  assert (Hf : found_sums (_data p) = true).
  { unfold found_sums. apply existsb_exists. exists c.
    split; [by apply list_elem_of_In |].
    unfold mismatch in Hm. by apply andb_prop in Hm as [Hm _]. }
  by rewrite Hf, andb_false_r.
Qed.

Lemma mismatch_excludes_missing_sums_witness :
  complete (_data sample_short_md5sums) = true /\
  "md5sums" ∈ checksum_fields /\
  exists es,
    _errors (validate sample_short_md5sums).1
    = _errors sample_short_md5sums ++ es /\
    (occurrences missing_sums_error es = 0
     \/ occurrences (checksum_msg "md5sums") es = 0).
Proof.
  assert (H : "md5sums" ∈ checksum_fields)
    by (apply list_elem_of_In; simpl; tauto).
  split; [vm_compute; reflexivity |].
  split; [exact H |].
  apply (mismatch_excludes_missing_sums sample_short_md5sums "md5sums");
    [vm_compute; reflexivity | exact H].
Defined.

(** ** How many findings a pass can append *)

Lemma fmap_filter_sublist (g : string -> string) (P : string -> bool) l :
  g <$> List.filter P l `sublist_of` g <$> l.
Proof.
  induction l as [| x l IH]; simpl; [constructor |].
  destruct (P x); simpl; by constructor.
Qed.

Lemma fmap_filter_length (g : string -> string) (P : string -> bool) l :
  length (g <$> List.filter P l) <= length l.
Proof.
  rewrite <- (length_fmap g l). apply sublist_length, fmap_filter_sublist.
Qed.

(** A decidable proposition about literals, by evaluation. *)
Ltac by_evaluation :=
  match goal with
  | |- ?G => apply (bool_decide_unpack G); vm_compute; exact I
  end.

(** One pass on a complete mapping reports no error twice and no warning
    twice, and appends at most twelve errors and two warnings. *)
Theorem validate_findings_bounded p :
  complete (_data p) = true ->
  exists es ws,
    _errors (validate p).1 = _errors p ++ es /\
    _warnings (validate p).1 = _warnings p ++ ws /\
    NoDup es /\ length es <= 12 /\ NoDup ws /\ length ws <= 2.
Proof.
  intros Hc. destruct (complete_name _ Hc) as [s Hn].
  rewrite (validate_complete p s Hc Hn). simpl.
  eexists _, _. split; [reflexivity |]. split; [reflexivity |].
  split; [| split; [| split]].
  - apply (sublist_NoDup _
      ((required_msg <$> _required_fields) ++ [name_error]
         ++ (checksum_msg <$> checksum_fields) ++ [missing_sums_error])).
    + by_evaluation.
    + apply sublist_app; [| apply sublist_app; [| apply sublist_app]].
      * apply fmap_filter_sublist.
      * unfold name_errors. destruct (name_re_match s);
          [apply sublist_nil_l | done].
      * apply fmap_filter_sublist.
      * unfold sources_errors.
        destruct (field_truthy (_data p) "source"
                  && negb (found_sums (_data p)));
          [done | apply sublist_nil_l].
  - rewrite !length_app.
    pose proof (fmap_filter_length required_msg (field_empty (_data p))
                  _required_fields) as H1.
    pose proof (fmap_filter_length checksum_msg (mismatch (_data p))
                  checksum_fields) as H2.
    fold (required_errors (_data p)) in H1.
    fold (checksum_errors (_data p)) in H2.
    assert (H3 : length (name_errors s) <= 1)
      by (unfold name_errors; destruct (name_re_match s); simpl; lia).
    assert (H4 : length (checksum_errors (_data p))
                 + length (sources_errors (_data p)) <= 5).
    { unfold sources_errors.
      destruct (field_truthy (_data p) "source") eqn:Hs; simpl;
        [| simpl in H2; lia].
      destruct (found_sums (_data p)) eqn:Hf; simpl; [simpl in H2; lia |].
      assert (E : checksum_errors (_data p) = []).
      { unfold checksum_errors. apply fmap_filter_nil.
        unfold found_sums in Hf.
        apply not_true_is_false. intros Hex.
        apply existsb_exists in Hex as (c & Hin & Hm).
        assert (Ht : existsb (field_truthy (_data p)) checksum_fields = true).
        { apply existsb_exists. exists c. split; [done |].
          unfold mismatch in Hm. by apply andb_prop in Hm as [Hm _]. }
        congruence. }
      rewrite E. simpl. lia. }
    simpl in H1. lia.
  - unfold name_warnings, description_warnings.
    destruct (name_re_match s && negb (lower_re_match s)),
      (field_truthy (_data p) "description"
       && (80 <? field_len (_data p) "description")); simpl;
      by_evaluation.
  - unfold name_warnings, description_warnings.
    destruct (name_re_match s && negb (lower_re_match s)),
      (field_truthy (_data p) "description"
       && (80 <? field_len (_data p) "description")); simpl; lia.
Qed.

Lemma validate_findings_bounded_witness :
  complete (_data sample_with_empty_fields) = true /\
  exists es ws,
    _errors (validate sample_with_empty_fields).1
    = _errors sample_with_empty_fields ++ es /\
    _warnings (validate sample_with_empty_fields).1
    = _warnings sample_with_empty_fields ++ ws /\
    NoDup es /\ length es <= 12 /\ NoDup ws /\ length ws <= 2.
Proof.
  split; [vm_compute; reflexivity |].
  apply validate_findings_bounded. vm_compute; reflexivity.
Defined.

(** ** Edge cases of the name rules *)

(** An empty name is reported twice: on a complete mapping whose name is
    the empty string, one pass appends both the "name field is required"
    error and the name-pattern error, each once, and no lower-case
    warning. *)
Theorem validate_empty_name p :
  complete (_data p) = true -> _data p !! "name" = Some (VStr "") ->
  exists es ws,
    _errors (validate p).1 = _errors p ++ es /\
    _warnings (validate p).1 = _warnings p ++ ws /\
    occurrences (required_msg "name") es = 1 /\
    occurrences name_error es = 1 /\
    occurrences lower_warning ws = 0.
Proof.
  intros Hc Hn0.
  assert (Hn : exists s, s = "" /\ _data p !! "name" = Some (VStr s))
    by eauto.
  clear Hn0. destruct Hn as (s & Es & Hn).
  rewrite (validate_complete p s Hc Hn). simpl.
  eexists _, _. split; [reflexivity |]. split; [reflexivity |].
  assert (Hin : "name" ∈ _required_fields)
    by (apply list_elem_of_In; simpl; tauto).
  rewrite occurrences_name_error, occurrences_lower_warning.
  rewrite occurrences_app, (occurrences_required_others _ s "name" Hin).
  rewrite (occurrences_required_errors _ "name" Hin).
  unfold field_empty. rewrite Hn. by subst s.
Qed.

Lemma validate_empty_name_witness :
  complete (_data (sample_named "")) = true /\
  _data (sample_named "") !! "name" = Some (VStr "") /\
  exists es ws,
    _errors (validate (sample_named "")).1
    = _errors (sample_named "") ++ es /\
    _warnings (validate (sample_named "")).1
    = _warnings (sample_named "") ++ ws /\
    occurrences (required_msg "name") es = 1 /\
    occurrences name_error es = 1 /\
    occurrences lower_warning ws = 0.
Proof.
  split; [vm_compute; reflexivity |].
  split; [vm_compute; reflexivity |].
  apply validate_empty_name; vm_compute; reflexivity.
Defined.

Lemma spec_class_newline : spec_class "010"%char = false.
Proof. reflexivity. Qed.

Lemma skip_class_newline s :
  all_chars spec_class s = true ->
  skip_class name_class (s +:+ newline) = newline.
Proof.
  induction s as [| c r IH]; [reflexivity |].
  rewrite string_app_cons. simpl.
  intros [Hc Hr]%andb_prop. rewrite name_class_spec, Hc. by apply IH.
Qed.

Lemma all_chars_app_newline s :
  all_chars spec_class (s +:+ newline) = false.
Proof.
  induction s as [| c r IH]; [reflexivity |].
  rewrite string_app_cons. simpl. rewrite IH. apply andb_false_r.
Qed.

(** A newline at the end of the name goes unnoticed: when [s] matches
    [[A-Za-z0-9_-]+] in full, the name [s] followed by a newline does not,
    and yet a pass on a complete mapping with that name appends no name
    error, since [$] also matches before a final newline. *)
Theorem validate_name_trailing_newline p s :
  complete (_data p) = true ->
  _data p !! "name" = Some (VStr (s +:+ newline)) ->
  spec_name_match s = true ->
  spec_name_match (s +:+ newline) = false /\
  exists es,
    _errors (validate p).1 = _errors p ++ es /\
    occurrences name_error es = 0.
Proof.
  intros Hc Hn Hs. split.
  - unfold spec_name_match. by rewrite all_chars_app_newline, andb_false_r.
  - rewrite (validate_complete p _ Hc Hn). simpl.
    eexists. split; [reflexivity |].
    rewrite occurrences_name_error.
    assert (Hm : name_re_match (s +:+ newline) = true); [| by rewrite Hm].
    unfold spec_name_match in Hs. destruct s as [| c r]; [done |].
    simpl in Hs. apply andb_prop in Hs as [Hc' Hr].
    rewrite string_app_cons. simpl.
    rewrite name_class_spec, Hc'. simpl.
    by rewrite (skip_class_newline r Hr).
Qed.

Lemma validate_name_trailing_newline_witness :
  complete (_data (sample_named ("hello" +:+ newline))) = true /\
  _data (sample_named ("hello" +:+ newline)) !! "name"
  = Some (VStr ("hello" +:+ newline)) /\
  spec_name_match "hello" = true /\
  spec_name_match ("hello" +:+ newline) = false /\
  exists es,
    _errors (validate (sample_named ("hello" +:+ newline))).1
    = _errors (sample_named ("hello" +:+ newline)) ++ es /\
    occurrences name_error es = 0.
Proof.
  do 3 (split; [vm_compute; reflexivity |]).
  apply validate_name_trailing_newline; vm_compute; reflexivity.
Defined.

Lemma lower_class_not_upper c :
  spec_class c = true -> lower_class c = negb (is_upper c).
Proof.
  destruct c as [[] [] [] [] [] [] [] []]; vm_compute; congruence.
Qed.

(** Only the first character decides the lower-case warning: on a complete
    mapping whose name matches [[A-Za-z0-9_-]+] in full, a pass appends the
    warning once when the name begins with an upper-case letter and not at
    all otherwise, whatever the case of the characters that follow. *)
Theorem validate_lower_warning_first_char p s :
  complete (_data p) = true -> _data p !! "name" = Some (VStr s) ->
  spec_name_match s = true ->
  exists ws,
    _warnings (validate p).1 = _warnings p ++ ws /\
    occurrences lower_warning ws = if starts_upper s then 1 else 0.
Proof.
  intros Hc Hn Hs. rewrite (validate_complete p s Hc Hn). simpl.
  eexists. split; [reflexivity |].
  rewrite occurrences_lower_warning, (name_re_match_full s Hs). simpl.
  unfold spec_name_match in Hs. destruct s as [| c r]; [done |].
  simpl in Hs. apply andb_prop in Hs as [Hc' _]. simpl.
  rewrite (lower_class_not_upper c Hc'). by destruct (is_upper c).
Qed.

Lemma validate_lower_warning_first_char_witness :
  complete (_data (sample_named "helloWorld")) = true /\
  _data (sample_named "helloWorld") !! "name" = Some (VStr "helloWorld") /\
  spec_name_match "helloWorld" = true /\
  exists ws,
    _warnings (validate (sample_named "helloWorld")).1
    = _warnings (sample_named "helloWorld") ++ ws /\
    occurrences lower_warning ws = if starts_upper "helloWorld" then 1 else 0.
Proof.
  do 3 (split; [vm_compute; reflexivity |]).
  apply validate_lower_warning_first_char; vm_compute; reflexivity.
Defined.

(** ** A pass that raises *)

(** A validation that raises is not remembered: on a package not yet
    validated whose pass raises, [is_valid] raises the same exception on
    every call, and each call runs the rules again and appends the
    findings made before the exception once more. *)
Theorem failed_validation_repeats p e :
  _validated p = false -> (validate p).2 = Raise e ->
  exists es ws,
    is_valid p = (extend p es ws, Raise e) /\
    is_valid (is_valid p).1 = (extend p (es ++ es) (ws ++ ws), Raise e).
Proof.
  intros Hv Hr. rewrite validate_run in Hr.
  assert (Hi : forall q, _validated q = false -> _data q = _data p ->
    is_valid q
    = (extend q (validate_findings (_data p)).1.1
                (validate_findings (_data p)).1.2, Raise e)).
  { intros q Hq Hd. unfold is_valid, bind. rewrite Hq. simpl.
    rewrite validate_run, Hd.
    destruct (validate_findings (_data p)) as [[es ws] [[] | e' |]];
      simpl in *; congruence. }
  eexists _, _. split; [by apply Hi |].
  rewrite (Hi p Hv eq_refl). cbn [fst].
  rewrite (Hi (extend p _ _)); [| done | done].
  by rewrite extend_extend.
Qed.

Lemma failed_validation_repeats_witness :
  _validated sample_empty_without_sha512 = false /\
  (validate sample_empty_without_sha512).2 = Raise (KeyError "sha512sums") /\
  (exists es ws,
     is_valid sample_empty_without_sha512
     = (extend sample_empty_without_sha512 es ws,
        Raise (KeyError "sha512sums")) /\
     is_valid (is_valid sample_empty_without_sha512).1
     = (extend sample_empty_without_sha512 (es ++ es) (ws ++ ws),
        Raise (KeyError "sha512sums"))) /\
  _errors (is_valid (is_valid sample_empty_without_sha512).1).1
  = ["description field is required"; "description field is required"].
Proof.
  split; [reflexivity |].
  split; [vm_compute; reflexivity |].
  split; [| vm_compute; reflexivity].
  apply failed_validation_repeats; vm_compute; reflexivity.
Defined.

(** * Further properties of the loader *)

(** ** Importing the evaluator's output *)

Lemma import_variables_cons py_dict l lines p :
  import_variables py_dict (l :: lines) p
  = match py_dict (rstrip l) with
    | Some temp => import_variables py_dict lines (data_update temp p).1
    | None => (p, Raise ExecError)
    end.
Proof.
  unfold import_variables. simpl. unfold bind at 1. unfold bind at 1.
  unfold exec_dict. by destruct (py_dict (rstrip l)).
Qed.

Lemma import_variables_app py_dict l1 l2 p :
  (import_variables py_dict l1 p).2 = Ok tt ->
  import_variables py_dict (l1 ++ l2) p
  = import_variables py_dict l2 (import_variables py_dict l1 p).1.
Proof.
  revert p. induction l1 as [| l l1 IH]; intros p; [done |].
  rewrite <- app_comm_cons, !import_variables_cons.
  destruct (py_dict (rstrip l)); [apply IH | discriminate].
Qed.

(** Later lines win.  When the lines before the last one were imported
    and the last line evaluates to the mapping [temp], the import returns
    and the field mapping is [temp] laid over what the earlier lines left:
    a key of the last line has the last line's value, every other key
    keeps its value. *)
Theorem import_later_line_wins py_dict lines l temp p :
  (import_variables py_dict lines p).2 = Ok tt ->
  py_dict (rstrip l) = Some temp ->
  (import_variables py_dict (lines ++ [l]) p).2 = Ok tt /\
  forall k,
    _data (import_variables py_dict (lines ++ [l]) p).1 !! k
    = match temp !! k with
      | Some v => Some v
      | None => _data (import_variables py_dict lines p).1 !! k
      end.
Proof.
  intros Hok Hl. rewrite (import_variables_app _ _ _ _ Hok).
  rewrite import_variables_cons, Hl. split; [done |].
  intros k. simpl. rewrite lookup_union.
  destruct (temp !! k) as [v |];
    by destruct (_data (import_variables py_dict lines p).1 !! k).
Qed.

Lemma import_later_line_wins_witness :
  (import_variables keyval_dict ["name=hello"; "version=1"] new_package).2
  = Ok tt /\
  keyval_dict (rstrip "name=world  ") = Some {[ "name" := VStr "world" ]} /\
  (import_variables keyval_dict
     (["name=hello"; "version=1"] ++ ["name=world  "]) new_package).2
  = Ok tt /\
  forall k,
    _data (import_variables keyval_dict
             (["name=hello"; "version=1"] ++ ["name=world  "])
             new_package).1 !! k
    = match ({[ "name" := VStr "world" ]} : gmap string value) !! k with
      | Some v => Some v
      | None =>
          _data (import_variables keyval_dict ["name=hello"; "version=1"]
                   new_package).1 !! k
      end.
Proof.
  split; [vm_compute; reflexivity |].
  split; [vm_compute; reflexivity |].
  apply import_later_line_wins; vm_compute; reflexivity.
Defined.

(** A line that [exec] rejects stops the import: the exception is raised,
    the lines after it are not looked at, and what the lines before it
    put into the mapping stays there. *)
Theorem import_stops_at_bad_line py_dict lines l rest p :
  (import_variables py_dict lines p).2 = Ok tt ->
  py_dict (rstrip l) = None ->
  import_variables py_dict (lines ++ l :: rest) p
  = ((import_variables py_dict lines p).1, Raise ExecError).
Proof.
  intros Hok Hl. rewrite (import_variables_app _ _ _ _ Hok).
  by rewrite import_variables_cons, Hl.
Qed.

Lemma import_stops_at_bad_line_witness :
  (import_variables keyval_dict ["name=hello"] new_package).2 = Ok tt /\
  keyval_dict (rstrip "pkgname hello") = None /\
  import_variables keyval_dict (["name=hello"] ++ "pkgname hello" :: ["version=1"])
    new_package
  = ((import_variables keyval_dict ["name=hello"] new_package).1,
     Raise ExecError).
Proof.
  split; [vm_compute; reflexivity |].
  split; [vm_compute; reflexivity |].
  apply import_stops_at_bad_line; vm_compute; reflexivity.
Defined.

Lemma rstrip_all_space w : all_chars Ascii.is_space w = true -> rstrip w = "".
Proof.
  induction w as [| c r IH]; [done |]. simpl.
  intros [Hc Hr]%andb_prop. by rewrite Hc, (IH Hr).
Qed.

Lemma rstrip_app_space s w :
  all_chars Ascii.is_space w = true -> rstrip (s +:+ w) = rstrip s.
Proof.
  intros Hw. induction s as [| c r IH]; [by apply rstrip_all_space |].
  rewrite string_app_cons. simpl. by rewrite IH.
Qed.

(** White space at the end of a line is of no account: blanks, tabs,
    carriage returns or newlines appended to every line change nothing in
    what the import does. *)
Theorem import_ignores_trailing_space py_dict w lines p :
  all_chars Ascii.is_space w = true ->
  import_variables py_dict ((fun l => l +:+ w) <$> lines) p
  = import_variables py_dict lines p.
Proof.
  intros Hw. revert p. induction lines as [| l lines IH]; intros p; [done |].
  rewrite fmap_cons, !import_variables_cons, (rstrip_app_space l w Hw).
  destruct (py_dict (rstrip l)); [apply IH | done].
Qed.

Lemma import_ignores_trailing_space_witness :
  all_chars Ascii.is_space (String "013" newline) = true /\
  import_variables keyval_dict
    ((fun l => l +:+ String "013" newline) <$> ["name=hello"; "version=1"])
    new_package
  = import_variables keyval_dict ["name=hello"; "version=1"] new_package.
Proof.
  split; [reflexivity |].
  apply import_ignores_trailing_space. reflexivity.
Defined.

(** ** What [load] does to the package and to the world *)

(** An archive without a descriptor is refused before anything is done:
    the package is as it was, no file is written, no temporary directory is
    made and no process is started; only the archive was opened. *)
Theorem load_without_pkgbuild_changes_nothing
    parsepkgbuild py_dict module_file file tar p w :
  endswith file ".tar.gz" = true ->
  archives w !! file = Some tar ->
  find_pkgbuild (getnames tar) = None ->
  load parsepkgbuild py_dict module_file file (p, w)
  = ((p, log (EvTarOpen file) w),
     Raise (InvalidPackage "tar file does not contain a PKGBUILD")).
Proof.
  intros He Ha Hf.
  unfold load, load_extract, bind, in_world, tarfile_open.
  rewrite He. cbn [fst snd archives log]. rewrite Ha.
  cbn [fst snd archives log]. by rewrite Hf.
Qed.

Lemma load_without_pkgbuild_changes_nothing_witness :
  endswith "empty.tar.gz" ".tar.gz" = true /\
  archives sample_world !! "empty.tar.gz"
  = Some [("hello/", ""); ("hello/README", "hello")] /\
  find_pkgbuild (getnames [("hello/", ""); ("hello/README", "hello")]) = None /\
  load cat_evaluator keyval_dict "/srv/aur/Package/pkgbuild.py" "empty.tar.gz"
    (new_package, sample_world)
  = ((new_package, log (EvTarOpen "empty.tar.gz") sample_world),
     Raise (InvalidPackage "tar file does not contain a PKGBUILD")).
Proof.
  do 3 (split; [vm_compute; reflexivity |]).
  apply (load_without_pkgbuild_changes_nothing cat_evaluator keyval_dict
           "/srv/aur/Package/pkgbuild.py" "empty.tar.gz"
           [("hello/", ""); ("hello/README", "hello")]);
    vm_compute; reflexivity.
Defined.

(** A file that cannot be opened as an archive: the exception of
    [tarfile.open] comes through, and nothing else happened. *)
Theorem load_unreadable_archive parsepkgbuild py_dict module_file file p w :
  endswith file ".tar.gz" = true ->
  archives w !! file = None ->
  load parsepkgbuild py_dict module_file file (p, w)
  = ((p, log (EvTarOpen file) w), Raise TarError).
Proof.
  intros He Ha.
  unfold load, load_extract, bind, in_world, tarfile_open.
  rewrite He. cbn [fst snd archives log]. by rewrite Ha.
Qed.

Lemma load_unreadable_archive_witness :
  endswith "missing.tar.gz" ".tar.gz" = true /\
  archives sample_world !! "missing.tar.gz" = None /\
  load cat_evaluator keyval_dict "/srv/aur/Package/pkgbuild.py"
    "missing.tar.gz" (new_package, sample_world)
  = ((new_package, log (EvTarOpen "missing.tar.gz") sample_world),
     Raise TarError).
Proof.
  do 2 (split; [vm_compute; reflexivity |]).
  apply load_unreadable_archive; vm_compute; reflexivity.
Defined.

(** Loading a plain file writes nothing: whatever the outcome, the files,
    the archives and the supply of temporary directories are as before. *)
Theorem load_plain_writes_nothing
    parsepkgbuild py_dict module_file file p w :
  endswith file ".tar.gz" = false ->
  let w' := (load parsepkgbuild py_dict module_file file (p, w)).1.2 in
  files w' = files w /\ archives w' = archives w
  /\ temp_dirs w' = temp_dirs w.
Proof.
  intros He.
  unfold load, load_extract, bind, in_world,
    in_pkg, popen, process_wait, stdout_readlines, ret, when.
  rewrite He. cbn [fst snd files pipe_capacity log].
  destruct (parsepkgbuild (working_dir_of file) (basename file) (files w))
    as [lines |]; [| done].
  cbn [fst snd files pipe_capacity log].
  destruct (output_size lines <=? pipe_capacity w); [| done].
  cbn [fst snd files pipe_capacity log].
  by destruct (import_variables py_dict lines p) as [p' [[] | e |]].
Qed.

Lemma load_plain_writes_nothing_witness :
  endswith "PKGBUILD" ".tar.gz" = false /\
  let w' := (load cat_evaluator keyval_dict "/srv/aur/Package/pkgbuild.py"
               "PKGBUILD" (new_package, sample_world)).1.2 in
  files w' = files sample_world /\ archives w' = archives sample_world
  /\ temp_dirs w' = temp_dirs sample_world.
Proof.
  split; [reflexivity |].
  apply load_plain_writes_nothing. reflexivity.
Defined.

(** A load from an archive that returns has cleaned up after itself: the
    extracted file is gone, and if no file of that name existed before,
    the files are exactly as they were.  The temporary directory it made
    is used up and not given back. *)
Theorem load_archive_success_removes_file
    parsepkgbuild py_dict module_file file p w tar m content directory rest :
  endswith file ".tar.gz" = true ->
  archives w !! file = Some tar ->
  find_pkgbuild (getnames tar) = Some m ->
  getmember tar m = Some content ->
  temp_dirs w = directory :: rest ->
  (load parsepkgbuild py_dict module_file file (p, w)).2 = Ok tt ->
  let w' := (load parsepkgbuild py_dict module_file file (p, w)).1.2 in
  fs_read (files w') (os_path_join directory m) = None /\
  (fs_read (files w) (os_path_join directory m) = None ->
   files w' = files w) /\
  temp_dirs w' = rest.
Proof.
  intros He Ha Hf Hm Ht.
  assert (Hne : exists c m', m = String c m').
  { destruct m as [| c m']; [| eauto].
    apply find_some in Hf as [_ Hf]. discriminate. }
  destruct Hne as (c & m' & ->).
  set (file' := os_path_join directory (String c m')).
  set (fs' := <[squeeze file' := content]> (files w)).
  assert (Hfs : fs' !! squeeze file' = Some content)
    by apply lookup_insert_eq.
  unfold load, load_extract, bind, in_world,
    in_pkg, popen, process_wait, stdout_readlines, ret, when, tarfile_open,
    mkdtemp, tar_extract, os_remove, fs_read.
  rewrite He. cbn [fst snd files pipe_capacity archives temp_dirs log set_files].
  rewrite Ha. cbn [fst snd files pipe_capacity archives temp_dirs log set_files].
  rewrite Hf. cbn [fst snd files pipe_capacity archives temp_dirs log set_files].
  rewrite Ht. cbn [fst snd files pipe_capacity archives temp_dirs log set_files].
  rewrite Hm. cbn [fst snd files pipe_capacity archives temp_dirs log set_files].
  fold file'. fold fs'.
  destruct (parsepkgbuild (working_dir_of file') (basename file') fs')
    as [lines |]; [| discriminate].
  cbn [fst snd files pipe_capacity archives temp_dirs log set_files].
  destruct (output_size lines <=? pipe_capacity w); [| discriminate].
  cbn [fst snd files pipe_capacity archives temp_dirs log set_files].
  destruct (import_variables py_dict lines p) as [p' [[] | e' |]];
    [| discriminate | discriminate].
  cbn [fst snd files pipe_capacity archives temp_dirs log set_files].
  rewrite Hfs. cbn [fst snd files pipe_capacity archives temp_dirs log set_files].
  intros _. split; [apply lookup_delete_eq |]. split; [| done].
  intros Hnone. subst fs'. rewrite delete_insert_eq.
  by apply delete_id.
Qed.

Lemma load_archive_success_removes_file_witness :
  endswith "hello.tar.gz" ".tar.gz" = true /\
  archives sample_world !! "hello.tar.gz"
  = Some [("hello/", ""); ("hello/PKGBUILD", "name=hello")] /\
  find_pkgbuild (getnames [("hello/", ""); ("hello/PKGBUILD", "name=hello")])
  = Some "hello/PKGBUILD" /\
  getmember [("hello/", ""); ("hello/PKGBUILD", "name=hello")] "hello/PKGBUILD"
  = Some "name=hello" /\
  temp_dirs sample_world = ["/tmp/tmpq3X9ab"; "/tmp/tmpLw0_e2"] /\
  (load cat_evaluator keyval_dict "/srv/aur/Package/pkgbuild.py"
     "hello.tar.gz" (new_package, sample_world)).2 = Ok tt /\
  let w' := (load cat_evaluator keyval_dict "/srv/aur/Package/pkgbuild.py"
               "hello.tar.gz" (new_package, sample_world)).1.2 in
  fs_read (files w') (os_path_join "/tmp/tmpq3X9ab" "hello/PKGBUILD") = None /\
  (fs_read (files sample_world)
     (os_path_join "/tmp/tmpq3X9ab" "hello/PKGBUILD") = None ->
   files w' = files sample_world) /\
  temp_dirs w' = ["/tmp/tmpLw0_e2"].
Proof.
  do 6 (split; [vm_compute; reflexivity |]).
  apply (load_archive_success_removes_file cat_evaluator keyval_dict
           "/srv/aur/Package/pkgbuild.py" "hello.tar.gz" new_package
           sample_world
           [("hello/", ""); ("hello/PKGBUILD", "name=hello")]
           "hello/PKGBUILD" "name=hello" "/tmp/tmpq3X9ab" ["/tmp/tmpLw0_e2"]);
    vm_compute; reflexivity.
Defined.

(** [load] only adds to the field mapping: a key bound before a load is
    bound after it, however the load ends.  Loading a second descriptor
    into a package therefore never forgets a field of the first. *)
Theorem load_keeps_keys parsepkgbuild py_dict module_file file p w k :
  is_Some (_data p !! k) ->
  is_Some (_data (load parsepkgbuild py_dict module_file file (p, w)).1.1 !! k).
Proof.
  intros Hk.
  cut (preserves (fun s : Package * World => is_Some (_data s.1 !! k))
         (load parsepkgbuild py_dict module_file file));
    [intros H; exact (H (p, w) Hk) |].
  clear Hk p w. unfold load.
  apply preserves_bind; [by intros s | intros script_dir].
  apply preserves_bind;
    [apply (load_extract_preserves (fun p => is_Some (_data p !! k)))
    | intros fi].
  apply preserves_bind;
    [apply (preserves_in_world (fun p => is_Some (_data p !! k)))
    | intros process].
  apply preserves_bind;
    [apply (preserves_in_world (fun p => is_Some (_data p !! k)))
    | intros _].
  apply preserves_bind;
    [apply (preserves_in_world (fun p => is_Some (_data p !! k)))
    | intros lines].
  apply preserves_bind.
  - apply (preserves_in_pkg (fun p => is_Some (_data p !! k))).
    apply preserves_for_each. intros expression.
    apply preserves_bind.
    + unfold exec_dict. destruct (py_dict (rstrip expression));
        [apply preserves_ret | apply preserves_raise].
    + intros temp q [v Hv]. simpl. rewrite lookup_union, Hv.
      by destruct (temp !! k).
  - intros _. apply preserves_when.
    apply (preserves_in_world (fun p => is_Some (_data p !! k))).
Qed.

Lemma load_keeps_keys_witness :
  is_Some (_data (package_of sample_fields) !! "arch") /\
  is_Some
    (_data (load cat_evaluator keyval_dict "/srv/aur/Package/pkgbuild.py"
              "PKGBUILD" (package_of sample_fields, sample_world)).1.1
     !! "arch").
Proof.
  assert (H : is_Some (_data (package_of sample_fields) !! "arch"))
    by (vm_compute; eauto).
  split; [exact H |].
  by apply load_keeps_keys.
Defined.

(** A package comes out of its constructor unvalidated: whatever was
    loaded, it is not marked validated or valid and has no errors and no
    warnings, so that the first [is_valid] query runs the rules. *)
Theorem Package_init_not_validated
    parsepkgbuild py_dict module_file file w p :
  (Package_init parsepkgbuild py_dict module_file file w).2 = Ok p ->
  verdict p = (false, false, [], []).
Proof.
  unfold Package_init.
  pose proof (load_preserves parsepkgbuild py_dict module_file
                (verdict new_package) file (new_package, w) eq_refl) as H.
  destruct (load parsepkgbuild py_dict module_file file (new_package, w))
    as [[p' w'] [[] | e |]]; simpl in *; [| discriminate | discriminate].
  by intros [= <-].
Qed.

Lemma Package_init_not_validated_witness :
  exists p,
    (Package_init cat_evaluator keyval_dict "/srv/aur/Package/pkgbuild.py"
       "hello.tar.gz" sample_world).2 = Ok p /\
    verdict p = (false, false, [], []).
Proof.
  eexists. split; [vm_compute; reflexivity |].
  eapply (Package_init_not_validated cat_evaluator keyval_dict
            "/srv/aur/Package/pkgbuild.py" "hello.tar.gz" sample_world).
  vm_compute; reflexivity.
Defined.

Lemma split_last_slash_tail p : no_slash (split_last_slash p).2 = true.
Proof.
  unfold no_slash. induction p as [| c q IH]; [done |]. simpl.
  destruct (split_last_slash q) as [[| a h] t]; simpl in *; [| done].
  destruct (is_slash c) eqn:Hc; simpl; [done |]. by rewrite Hc.
Qed.

Lemma no_slash_head_nil p : no_slash p = true -> (split_last_slash p).1 = "".
Proof.
  unfold no_slash. induction p as [| c q IH]; [done |]. simpl.
  intros [Hc Hq]%andb_prop. specialize (IH Hq).
  destruct (split_last_slash q) as [h t]; simpl in *. subst h.
  apply negb_true_iff in Hc. by rewrite Hc.
Qed.

(** The evaluator is started once, in the directory of the file, on its
    base name.  For a plain file the first thing [load] does is to start
    the process with the arguments [basename file] and, as working
    directory, [working_dir_of file]; it starts no other.  The file name
    passed has no slash in it; the working directory is left to the
    interpreter's own exactly when the path has no slash; and, runs of
    slashes apart, directory and name together are the path given. *)
Theorem load_points_evaluator_at_file
    parsepkgbuild py_dict module_file file p w :
  endswith file ".tar.gz" = false ->
  exists command rest,
    trace (load parsepkgbuild py_dict module_file file (p, w)).1.2
    = trace w
      ++ EvSpawn command (basename file) (working_dir_of file) :: rest /\
    existsb is_spawn rest = false /\
    no_slash (basename file) = true /\
    (working_dir_of file = None <-> no_slash file = true) /\
    squeeze (descriptor_path (working_dir_of file) (basename file))
    = squeeze file.
Proof.
  intros He.
  destruct (load_plain_trace parsepkgbuild py_dict module_file file p w He)
    as [command Ht].
  eexists command, _. split; [exact Ht |].
  split; [| split; [apply split_last_slash_tail | split;
                     [| apply descriptor_path_of_file]]].
  - destruct (parsepkgbuild (working_dir_of file) (basename file) (files w))
      as [lines |]; [| done].
    by destruct (output_size lines <=? pipe_capacity w).
  - unfold working_dir_of, dirname. split.
    + intros Hnone.
      pose proof (split_last_slash_app file) as Happ.
      pose proof (split_last_slash_tail file) as Htail.
      destruct (split_last_slash file) as [h t]; cbn [fst snd] in *.
      case_bool_decide as Hd; [| discriminate].
      destruct h as [| a h']; [by rewrite <- Happ |].
      exfalso. rewrite (bool_decide_eq_false_2 (String a h' = "")) in Hd
        by done.
      rewrite andb_true_l in Hd.
      destruct (all_slashes (String a h')) eqn:Ha; cbn [negb] in Hd;
        [done |].
      by apply (all_slashes_rstrip _ Ha).
    + intros Hno. rewrite (no_slash_head_nil file Hno). reflexivity.
Qed.

(** A path with directories and doubled slashes: the process is started in
    [/srv//abs/hello] on [PKGBUILD]. *)
Lemma load_points_evaluator_at_file_witness :
  endswith "/srv//abs/hello///PKGBUILD" ".tar.gz" = false /\
  (exists command rest,
     trace (load cat_evaluator keyval_dict "/srv/aur/Package/pkgbuild.py"
              "/srv//abs/hello///PKGBUILD" (new_package, sample_world)).1.2
     = trace sample_world
       ++ EvSpawn command (basename "/srv//abs/hello///PKGBUILD")
            (working_dir_of "/srv//abs/hello///PKGBUILD") :: rest /\
     existsb is_spawn rest = false /\
     no_slash (basename "/srv//abs/hello///PKGBUILD") = true /\
     (working_dir_of "/srv//abs/hello///PKGBUILD" = None
      <-> no_slash "/srv//abs/hello///PKGBUILD" = true) /\
     squeeze (descriptor_path (working_dir_of "/srv//abs/hello///PKGBUILD")
                (basename "/srv//abs/hello///PKGBUILD"))
     = squeeze "/srv//abs/hello///PKGBUILD") /\
  basename "/srv//abs/hello///PKGBUILD" = "PKGBUILD" /\
  working_dir_of "/srv//abs/hello///PKGBUILD" = Some "/srv//abs/hello".
Proof.
  split; [reflexivity |].
  split; [apply load_points_evaluator_at_file; reflexivity |].
  split; vm_compute; reflexivity.
Defined.

(** When the evaluator prints nothing -- as it may for a file that holds
    no assignment, or for no file at all -- the constructor still returns
    a package; its mapping is empty, and the [is_valid] query on it raises
    [KeyError] instead of answering. *)
Theorem Package_init_no_output parsepkgbuild py_dict module_file file w :
  endswith file ".tar.gz" = false ->
  parsepkgbuild (working_dir_of file) (basename file) (files w) = Some [] ->
  exists w',
    Package_init parsepkgbuild py_dict module_file file w
    = (w', Ok new_package) /\
    is_valid new_package = (new_package, Raise (KeyError "name")).
Proof.
  intros He Hp.
  unfold Package_init, load, load_extract, bind, in_world,
    in_pkg, popen, process_wait, stdout_readlines, ret, when.
  rewrite He. cbn [fst snd files pipe_capacity log]. rewrite Hp.
  cbn [fst snd files pipe_capacity log output_size foldr].
  cbn. eexists. split; reflexivity.
Qed.

Lemma Package_init_no_output_witness :
  endswith "nothing/PKGBUILD" ".tar.gz" = false /\
  cat_evaluator (working_dir_of "nothing/PKGBUILD")
    (basename "nothing/PKGBUILD") (files sample_world) = Some [] /\
  exists w',
    Package_init cat_evaluator keyval_dict "/srv/aur/Package/pkgbuild.py"
      "nothing/PKGBUILD" sample_world
    = (w', Ok new_package) /\
    is_valid new_package = (new_package, Raise (KeyError "name")).
Proof.
  split; [reflexivity |].
  split; [vm_compute; reflexivity |].
  apply Package_init_no_output; vm_compute; reflexivity.
Defined.

(** * The mapping interface *)

(** Reading, membership and the list of keys agree: a key that
    [__contains__] reports and [keys] lists can be read, and reading any
    other key raises [KeyError] for that key and changes nothing. *)
Theorem getitem_agrees_with_contains parsepkgbuild py_dict module_file s k :
  exists b ks,
    call parsepkgbuild py_dict module_file (CallContains k) s
    = (s, Ok (RBool b)) /\
    call parsepkgbuild py_dict module_file CallKeys s
    = (s, Ok (RStrings ks)) /\
    (k ∈ ks <-> b = true) /\
    (b = true ->
     exists v, call parsepkgbuild py_dict module_file (CallGetItem k) s
               = (s, Ok (RValue v))) /\
    (b = false ->
     call parsepkgbuild py_dict module_file (CallGetItem k) s
     = (s, Raise (KeyError k))).
Proof.
  exists (bool_decide (is_Some (_data s.1 !! k))), (map_to_list (_data s.1)).*1.
  split; [done |]. split; [done |].
  assert (Hcall : call parsepkgbuild py_dict module_file (CallGetItem k) s
    = match _data s.1 !! k with
      | Some v => (s, Ok (RValue v))
      | None => (s, Raise (KeyError k))
      end).
  { destruct s as [p w]. simpl. unfold returning, bind, in_pkg, getitem. simpl.
    by destruct (_data p !! k). }
  rewrite Hcall. split; [| split].
  - rewrite bool_decide_eq_true. split.
    + intros ([k' v] & -> & Hin)%list_elem_of_fmap.
      apply elem_of_map_to_list in Hin. simpl. eauto.
    + intros [v Hv]. apply list_elem_of_fmap. exists (k, v).
      split; [done |]. by apply elem_of_map_to_list.
  - intros [v Hv]%bool_decide_eq_true. rewrite Hv. eauto.
  - intros Hn%bool_decide_eq_false.
    destruct (_data s.1 !! k) eqn:E; [| done].
    exfalso. apply Hn. eauto.
Qed.

(** Item assignment: the assigned value is read back, every other key
    reads as before, and neither the cached verdict nor the findings are
    touched -- a field patched after validation does not show in
    [is_valid]. *)
Theorem setitem_then_getitem p k v :
  getitem k (setitem k v p).1 = ((setitem k v p).1, Ok v) /\
  (forall k', k' <> k ->
     (getitem k' (setitem k v p).1).2 = (getitem k' p).2) /\
  verdict (setitem k v p).1 = verdict p.
Proof.
  split; [| split].
  - unfold getitem, setitem. simpl. by rewrite lookup_insert_eq.
  - intros k' Hne. unfold getitem, setitem. simpl.
    rewrite lookup_insert_ne by done. by destruct (_data p !! k').
  - reflexivity.
Qed.

(** A name bound to a list -- a split package -- cannot be validated: with
    every key of the rules bound, the pass raises [TypeError] at the name
    pattern, after the required-field rule has run, and the package is not
    marked validated. *)
Theorem validate_list_name p l :
  (forall k, k ∈ validate_keys -> is_Some (_data p !! k)) ->
  _data p !! "name" = Some (VList l) ->
  validate p = (extend p (required_errors (_data p)) [], Raise TypeError).
Proof.
  intros Hb Hn. rewrite validate_run.
  unfold validate_findings, required_findings.
  rewrite required_findings_bound
    by (apply Forall_forall; intros k Hk; by apply Hb, required_in_keys).
  unfold name_findings. rewrite Hn. simpl. by rewrite app_nil_r.
Qed.

Lemma validate_list_name_witness :
  (forall k, k ∈ validate_keys ->
     is_Some (_data (package_of (<["name" := VList ["hello"; "hello-doc"]]>
                                   (<["arch" := VList []]> sample_fields)))
              !! k)) /\
  _data (package_of (<["name" := VList ["hello"; "hello-doc"]]>
                       (<["arch" := VList []]> sample_fields))) !! "name"
  = Some (VList ["hello"; "hello-doc"]) /\
  validate (package_of (<["name" := VList ["hello"; "hello-doc"]]>
                          (<["arch" := VList []]> sample_fields)))
  = (extend (package_of (<["name" := VList ["hello"; "hello-doc"]]>
                           (<["arch" := VList []]> sample_fields)))
       (required_errors
          (_data (package_of (<["name" := VList ["hello"; "hello-doc"]]>
                                (<["arch" := VList []]> sample_fields))))) [],
     Raise TypeError).
Proof.
  assert (H : forall k, k ∈ validate_keys ->
     is_Some (_data (package_of (<["name" := VList ["hello"; "hello-doc"]]>
                                   (<["arch" := VList []]> sample_fields)))
              !! k)).
  { intros k Hk. unfold validate_keys, _required_fields, checksum_fields in Hk.
    simpl in Hk.
    repeat (apply elem_of_cons in Hk as [-> | Hk]);
      [.. | by apply not_elem_of_nil in Hk]; vm_compute; eauto. }
  split; [exact H |].
  split; [vm_compute; reflexivity |].
  apply (validate_list_name _ ["hello"; "hello-doc"] H).
  vm_compute; reflexivity.
Defined.
